(** * Multi-account deployment-scanner drivers

    A shallow embedding of the two driver scripts

      - [performance/deployment-scanner/run-multi-account-scan.py]
        (one CSV per profile), module [PerProfile] below, and
      - [performance/deployment-scanner/run-multi-account-scan-single-csv.py]
        (one combined CSV), module [SingleCsv] below,

    together with the properties of profile discovery, batch execution,
    CSV merging and the command-line driver.

    Python values are modelled as follows.
      - A [str] is the list of its Unicode code points.
      - A CSV row is the list of its fields; a CSV file is the list of rows
        that [csv.reader] yields for it and that [csv.writer] wrote to it.
      - [os.environ] and the directory of CSV files are finite maps.
      - [print], [subprocess.run] and the file operations are steps of a
        state monad that also carries Python's [Exception]s and
        [SystemExit]; every step is logged in a trace.
      - What the scanner does, and whether reading, removing or writing a
        CSV file raises, is given by the [host] the script runs on.
        [print] itself is taken not to raise. *)

From Stdlib Require Import NArith ZArith String Ascii List.
From stdpp Require Import base decidable option list gmap.

Local Open Scope N_scope.

(** ** Strings *)

Definition str : Type := list N.

(** The code points of a literal of the source text. *)
Definition py (s : string) : str :=
  List.map N_of_ascii (list_ascii_of_string s).
Arguments py : simpl never.

(** [Py_UNICODE_ISSPACE]: the test behind [str.strip] and the regular
    expression class [\s] on [str] patterns. *)
Definition is_space (c : N) : bool :=
  ((9 <=? c) && (c <=? 13)) || ((28 <=? c) && (c <=? 32))
  || (c =? 133) || (c =? 160) || (c =? 5760)
  || ((8192 <=? c) && (c <=? 8202))
  || (c =? 8232) || (c =? 8233) || (c =? 8239) || (c =? 8287)
  || (c =? 12288).

Definition newline : N := 10.
Definition lbracket : N := 91.
Definition rbracket : N := 93.
Definition comma : N := 44.

Definition is_newline (c : N) : bool := c =? newline.

Fixpoint lstrip (s : str) : str :=
  match s with
  | c :: t => if is_space c then lstrip t else s
  | [] => []
  end.

Definition rstrip (s : str) : str := rev (lstrip (rev s)).

(** [s.strip()] *)
Definition strip (s : str) : str := rstrip (lstrip s).

(** [s.split(sep)] for a one-character separator: never an empty list. *)
Fixpoint split (sep : N) (s : str) : list str :=
  match s with
  | [] => [[]]
  | c :: t =>
      if c =? sep then [] :: split sep t
      else match split sep t with
           | h :: r => (c :: h) :: r
           | [] => [[c]]
           end
  end.

Fixpoint starts_with (p s : str) : bool :=
  match p, s with
  | [], _ => true
  | a :: p', b :: s' => (a =? b) && starts_with p' s'
  | _ :: _, [] => false
  end.

(** [sub in s] *)
Fixpoint contains (sub s : str) : bool :=
  starts_with sub s
  || match s with
     | [] => false
     | _ :: t => contains sub t
     end.

(** Truth value of a string, of an optional string and of a list. *)
Definition truthy {A} (l : list A) : bool :=
  match l with [] => false | _ :: _ => true end.

Definition truthy_opt {A} (o : option (list A)) : bool :=
  match o with Some l => truthy l | None => false end.

(** ** The fragment of [re] that [profile_pattern] uses

    A backtracking matcher in continuation-passing style: every construct
    tries its alternatives in the order of Python's engine (the greedy one
    first) and commits to the first one under which the rest of the
    pattern matches. *)
Module Re.

Inductive t : Type :=
| Eps                      (* the empty pattern *)
| Bol                      (* [^] under [re.MULTILINE] *)
| Chr (c : N)              (* one literal character *)
| Plus (p : N -> bool)     (* [C+] for a character class [C], greedy *)
| Seq (a b : t)            (* [ab] *)
| Opt (a : t)              (* [(?:a)?], greedy *)
| Grp (a : t).             (* [(a)], the capturing group 1 *)

(** A literal word is the sequence of its characters. *)
Fixpoint word (w : str) : t :=
  match w with
  | [] => Eps
  | c :: w' => Seq (Chr c) (word w')
  end.

(** A position in the subject: [bol] says that it is the start of the
    string or follows a newline, [rest] is the text from there on, [grp]
    what group 1 captured so far. *)
Record cursor : Type := Cursor {
  bol : bool;
  rest : str;
  grp : option str
}.

Section Match.
Context {R : Type}.

(** [C+]: the longest run first, then shorter ones, at least one
    character. *)
Fixpoint plus (p : N -> bool) (g : option str) (s : str)
    (k : cursor -> option R) : option R :=
  match s with
  | c :: s' =>
      if p c then
        match plus p g s' k with
        | Some r => Some r
        | None => k (Cursor (is_newline c) s' g)
        end
      else None
  | [] => None
  end.

Fixpoint run (r : t) (cur : cursor) (k : cursor -> option R) : option R :=
  match r with
  | Eps => k cur
  | Bol => if bol cur then k cur else None
  | Chr c =>
      match rest cur with
      | x :: s' =>
          if x =? c then k (Cursor (is_newline x) s' (grp cur)) else None
      | [] => None
      end
  | Plus p => plus p (grp cur) (rest cur) k
  | Seq a b => run a cur (fun cur' => run b cur' k)
  | Opt a =>
      match run a cur k with
      | Some x => Some x
      | None => k cur
      end
  | Grp a =>
      run a cur (fun cur' =>
        k (Cursor (bol cur') (rest cur')
             (Some (take (length (rest cur) - length (rest cur'))
                         (rest cur)))))
  end.
End Match.

(** A match attempt anchored at one position. *)
Definition match_at (r : t) (b : bool) (s : str) : option cursor :=
  run r (Cursor b s None) Some.

(** The scan of [re.findall] for a pattern with one group: the leftmost
    match from the current position on, its group 1, then on from the
    end of that match.  [n] bounds the number of positions tried.  The
    branch for a match that consumed nothing only keeps the scan moving:
    no match of [profile_pattern] is empty. *)
Fixpoint findall_from (n : nat) (r : t) (b : bool) (s : str) : list str :=
  match n with
  | O => []
  | S n' =>
      match match_at r b s with
      | Some m =>
          default [] (grp m) ::
            (if decide (length (rest m) < length s)%nat
             then findall_from n' r (bol m) (rest m)
             else match s with
                  | c :: s' => findall_from n' r (is_newline c) s'
                  | [] => []
                  end)
      | None =>
          match s with
          | c :: s' => findall_from n' r (is_newline c) s'
          | [] => []
          end
      end
  end.

(** [re.findall(r, s, re.MULTILINE)]: one step per position of [s] and
    one for its end are enough. *)
Definition findall (r : t) (s : str) : list str :=
  findall_from (S (length s)) r true s.

End Re.

(** ** Profile discovery: [get_aws_profiles], the same text in both scripts *)

(** [r'^\[(?:profile\s+)?([^\]]+)\]'] *)
Definition profile_pattern : Re.t :=
  Re.Seq Re.Bol
    (Re.Seq (Re.Chr lbracket)
       (Re.Seq (Re.Opt (Re.Seq (Re.word (py "profile")) (Re.Plus is_space)))
          (Re.Seq (Re.Grp (Re.Plus (fun c => negb (c =? rbracket))))
             (Re.Chr rbracket)))).

(** The loop over the matches. *)
Fixpoint named_profiles (matches : list str) : list str :=
  match matches with
  | [] => []
  | m :: ms =>
      if truthy (strip m) && negb (bool_decide (strip m = py "default"))
      then strip m :: named_profiles ms
      else named_profiles ms
  end.

(** The body of the [try] block once [content] is read. *)
Definition profiles_of_content (content : str) : list str :=
  let matches := Re.findall profile_pattern content in
  let profiles := named_profiles matches in
  if contains (py "[default]") content
  then profiles ++ [py "default"]
  else profiles.

(** ** The world the scripts run in *)

Definition row : Type := list str.

(** [~/.aws/config]: absent, present but failing on [open] or [read], or
    present with the text that [f.read()] returns. *)
Inductive config_file : Type :=
| NoConfig
| Unreadable (msg : str)
| Config (content : str).

(** The arguments of one [subprocess.run] call ([capture_output] and [text]
    are always [True]); [env] is the content of the dictionary passed at
    the time of the call. *)
Record invocation : Type := Invocation {
  cmd : list str;
  env : gmap str str;
  cwd : str;
  timeout : Z
}.

(** What a child process does within [subprocess.run]. *)
Inductive proc_result : Type :=
| Completed (returncode : Z) (stdout stderr : str)
| TimedOut
| LaunchFailed (msg : str).

(** The exceptions below [Exception] that the scripts tell apart. *)
Inductive exn : Type :=
| TimeoutExpired
| Error (msg : str).

(** The [print] statements of the two scripts, with the values they
    interpolate. *)
Inductive line : Type :=
(* get_aws_profiles *)
| ConfigNotFound                       (* Error: AWS config file not found at .. *)
| ConfigReadError (e : exn)            (* Error reading AWS config file: {e} *)
(* run_deployment_scanner, run_deployment_scanner_and_parse_csv *)
| BlankRule                            (* \n{'='*80} *)
| Rule                                 (* {'='*80} *)
| ProcessingAwsProfile (p : str)       (* Processing AWS Profile: {profile} *)
| Succeeded (p : str)                  (* Successfully processed profile: .. *)
| OutputLabel                          (* Output: *)
| Text (s : str)                       (* print(result.stdout) *)
| CsvNotFound (p : str)                (* Warning: CSV file not found for .. *)
| ErrorProcessing (p : str)            (* Error processing profile: .. *)
| ErrorText (s : str)                  (* Error: {result.stderr} *)
| Timeout (p : str)                    (* Timeout processing profile: .. *)
| ExceptionProcessing (p : str) (e : exn) (* Exception processing profile .. *)
(* write_combined_csv *)
| NoDataToWrite                        (* No data to write *)
| NoValidHeaders                       (* No valid headers found *)
| CombinedWritten (f : str)            (* Combined CSV written to: .. *)
(* main *)
| NeedEndDate                          (* Error: Must provide --end-date .. *)
| NeedStartDate                        (* Error: Must provide --start-date .. *)
| UsingSpecified (ps : list str)       (* Using specified profiles: .. *)
| FoundProfiles (n : nat) (ps : list str) (* Found {n} profiles in .. *)
| NoProfilesFound                      (* No profiles found to process *)
| ConfigurationLabel                   (* \nConfiguration: *)
| RegionLine (r : str)                 (*   Region: .. *)
| BaseLogLine (f : str)                (*   Base log file name: .. *)
| OutputFileLine (f : str)             (*   Output file: .. *)
| DateRange (s e : str)                (*   Date range: {s} to {e} *)
| DateRangeDefault                     (*   Date range: Last 30 days (default) *)
| ProfilesToProcess (ps : list str)    (*   Profiles to process: .. *)
| DryRun (n : nat)                     (* \nDRY RUN - Would process {n} profiles: *)
| DryRunTarget (p f : str)             (*   Profile: {profile} -> {log_file} *)
| DryRunProfile (p : str)              (*   Profile: {profile} *)
| DryRunCombined (f : str)             (*   Combined results would be saved to: .. *)
| Starting (n : nat)                   (* \nStarting processing of {n} profiles... *)
| Progress (i n : nat) (p : str)       (* \n[{i}/{n}] Processing profile: .. *)
| FailedToProcess (p : str) (e : exn)  (* Failed to process profile {p}: {e} *)
| ScanCompleted                        (* SCAN COMPLETED *)
| Total (n : nat)                      (* Total profiles processed: {n} *)
| Successful (n : nat)                 (* Successful: {n} *)
| Failed (n : nat)                     (* Failed: {n} *)
| SuccessfulLabel                      (* \nSuccessful profiles: *)
| SuccessfulTarget (p f : str)         (*   {profile} -> {log_file} *)
| SuccessfulProfile (p : str)          (*   {profile} *)
| FailedLabel                          (* \nFailed profiles: *)
| FailedProfile (p : str)              (*   {profile} *)
| AllGenerated                         (* \nAll CSV files have been generated .. *)
| CombinedFileLine (f : str).          (* \nCombined CSV file: .. *)

(** What the process does to the outside, in order.  The events of the
    file operations stand for the calls, whether they raise or not. *)
Inductive event : Type :=
| Print (l : line)
| ConfigStat                           (* config_file.exists() *)
| ConfigRead                           (* open(config_file) and f.read() *)
| Spawn (i : invocation)               (* subprocess.run *)
| FileRead (path : str)                (* open(path, 'r'), csv.reader *)
| FileRemove (path : str)              (* os.remove *)
| FileWrite (path : str) (rows : list row). (* open(path, 'w'), csv.writer *)

(** How writing a CSV file fails: [open(path, 'w')] raises and nothing is
    created or changed (an empty path, a missing directory, no
    permission), or a later [writerow] or the closing of the file raises
    and the file is left with what got through. *)
Inductive write_fault : Type :=
| OpenFailed (msg : str)
| WriteFailed (msg : str) (partial : list row).

(** A dictionary object: [os.environ] itself, or one allocated by the
    script. *)
Inductive dict_ref : Type :=
| OsEnviron
| Obj (n : nat).

Record state : Type := State {
  environ : gmap str str;          (* the content of os.environ *)
  heap : list (gmap str str);      (* the dictionaries the script allocated *)
  config : config_file;            (* ~/.aws/config *)
  files : gmap str (list row);     (* CSV files, by the path used for them *)
  trace : list event
}.

(** The machine outside the script: the interpreter path, the directory
    of the script, what the scanner does when it is run for the [n]-th
    time (counting from 0) on an invocation and a directory of files (its
    result and the files it leaves), and the errors of the file system:
    whether, after [n] runs of the scanner and for a path and a directory
    of files, reading the CSV file, removing it, or writing rows to it
    raises, and with which message. *)
Record host : Type := Host {
  executable : str;
  script_dir : str;
  scanner : nat -> invocation -> gmap str (list row)
            -> proc_result * gmap str (list row);
  read_error : nat -> str -> gmap str (list row) -> option str;
  remove_error : nat -> str -> gmap str (list row) -> option str;
  write_error : nat -> str -> list row -> gmap str (list row)
                -> option write_fault
}.

(** ** The monad of script steps *)

Inductive outcome (A : Type) : Type :=
| Val (a : A)            (* normal completion *)
| Raise (e : exn)        (* an Exception is propagating *)
| SysExit (code : Z).    (* sys.exit(code) is propagating *)
Arguments Val {A} a.
Arguments Raise {A} e.
Arguments SysExit {A} code.

Definition M (A : Type) : Type := state -> outcome A * state.

Definition ret {A} (a : A) : M A := fun st => (Val a, st).

Definition bind {A B} (m : M A) (f : A -> M B) : M B :=
  fun st =>
    match m st with
    | (Val a, st') => f a st'
    | (Raise e, st') => (Raise e, st')
    | (SysExit c, st') => (SysExit c, st')
    end.

Notation "x <- m ;; k" := (bind m (fun x => k))
  (at level 100, m at next level, right associativity,
   format "'[v' x  <-  m  ;;  '/' k ']'").
Notation "m ;; k" := (bind m (fun _ => k))
  (at level 100, right associativity, format "'[v' m  ;;  '/' k ']'").

Definition raise {A} (e : exn) : M A := fun st => (Raise e, st).

(** [sys.exit(code)] *)
Definition sys_exit {A} (code : Z) : M A := fun st => (SysExit code, st).

(** [try: body  except Exception as e: handler e]; [SystemExit] is not an
    [Exception] and passes through. *)
Definition try_except {A} (body : M A) (handler : exn -> M A) : M A :=
  fun st =>
    match body st with
    | (Raise e, st') => handler e st'
    | r => r
    end.

Definition log (e : event) (st : state) : state :=
  State (environ st) (heap st) (config st) (files st) (trace st ++ [e]).

Definition emit (e : event) : M unit := fun st => (Val tt, log e st).

Definition print (l : line) : M unit := emit (Print l).

Definition when (b : bool) (m : M unit) : M unit := if b then m else ret tt.

(** [for x in l: body x] *)
Fixpoint for_each {A} (l : list A) (body : A -> M unit) : M unit :=
  match l with
  | [] => ret tt
  | x :: l' =>
      body x ;;
      for_each l' body
  end.

(** The exit status of the process when the top-level call ends in [r]:
    0 on return, the code of a [sys.exit], 1 for an uncaught exception. *)
Definition exit_status {A} (r : outcome A) : Z :=
  match r with
  | Val _ => 0%Z
  | Raise _ => 1%Z
  | SysExit c => c
  end.

(** *** Dictionaries *)

Definition deref (r : dict_ref) (st : state) : gmap str str :=
  match r with
  | OsEnviron => environ st
  | Obj n => default ∅ (heap st !! n)
  end.

(** [d.copy()]: a new object with the same content. *)
Definition dict_copy (r : dict_ref) : M dict_ref :=
  fun st =>
    (Val (Obj (length (heap st))),
     State (environ st) (heap st ++ [deref r st]) (config st) (files st)
           (trace st)).

(** [d[k] = v] updates the object [d] refers to. *)
Definition dict_set (r : dict_ref) (k v : str) : M unit :=
  fun st =>
    (Val tt,
     match r with
     | OsEnviron =>
         State (<[k := v]> (environ st)) (heap st) (config st) (files st)
               (trace st)
     | Obj n =>
         State (environ st) (alter (insert k v) n (heap st)) (config st)
               (files st) (trace st)
     end).

(** *** Child processes and files *)

Definition is_spawn (e : event) : bool :=
  match e with Spawn _ => true | _ => false end.

(** The invocations made so far. *)
Definition spawned (tr : list event) : list invocation :=
  omap (fun e => match e with Spawn i => Some i | _ => None end) tr.

(** How often the scanner has been run so far. *)
Definition runs (st : state) : nat := length (spawned (trace st)).
Arguments runs : simpl never.

(** The state with other files and one more event. *)
Definition leave (fs : gmap str (list row)) (e : event) (st : state) : state :=
  State (environ st) (heap st) (config st) fs (trace st ++ [e]).

(** [os.path.exists(path)] *)
Definition path_exists (path : str) : M bool :=
  fun st => (Val (bool_decide (is_Some (files st !! path))), st).

Section Outside.
Variable h : host.

(** [with open(path, 'r') as f: rows = list(csv.reader(f))]: the rows of
    the file, unless opening or reading it raises. *)
Definition read_csv (path : str) : M (list row) :=
  fun st =>
    let st' := log (FileRead path) st in
    match files st !! path with
    | Some rows =>
        match read_error h (runs st) path (files st) with
        | None => (Val rows, st')
        | Some msg => (Raise (Error msg), st')
        end
    | None => (Raise (Error (py "FileNotFoundError")), st')
    end.

(** [os.remove(path)]: the file is gone, unless removing it raises. *)
Definition os_remove (path : str) : M unit :=
  fun st =>
    match files st !! path with
    | Some _ =>
        match remove_error h (runs st) path (files st) with
        | None => (Val tt, leave (delete path (files st)) (FileRemove path) st)
        | Some msg => (Raise (Error msg), log (FileRemove path) st)
        end
    | None =>
        (Raise (Error (py "FileNotFoundError")), log (FileRemove path) st)
    end.

(** [with open(path, 'w') as f: w = csv.writer(f); for r in rows:
    w.writerow(r)]: the file is created or replaced, unless opening or
    writing it raises. *)
Definition write_csv (path : str) (rows : list row) : M unit :=
  fun st =>
    let e := FileWrite path rows in
    match write_error h (runs st) path rows (files st) with
    | None => (Val tt, leave (<[path := rows]> (files st)) e st)
    | Some (OpenFailed msg) => (Raise (Error msg), log e st)
    | Some (WriteFailed msg partial) =>
        (Raise (Error msg), leave (<[path := partial]> (files st)) e st)
    end.

(** [subprocess.run(cmd, env=env, cwd=cwd, capture_output=True,
    text=True, timeout=t)] *)
Definition subprocess_run (c : list str) (e : dict_ref) (d : str) (t : Z)
    : M (Z * str * str) :=
  fun st =>
    let i := Invocation c (deref e st) d t in
    let '(r, fs) := scanner h (runs st) i (files st) in
    let st' := leave fs (Spawn i) st in
    match r with
    | Completed rc out err => (Val (rc, out, err), st')
    | TimedOut => (Raise TimeoutExpired, st')
    | LaunchFailed msg => (Raise (Error msg), st')
    end.
End Outside.

(** *** Reading the profile configuration *)

(** [config_file.exists()] *)
Definition config_exists : M bool :=
  fun st =>
    (Val (match config st with NoConfig => false | _ => true end),
     log ConfigStat st).

(** [with open(config_file, 'r') as f: content = f.read()] *)
Definition read_config : M str :=
  fun st =>
    match config st with
    | Config c => (Val c, log ConfigRead st)
    | Unreadable msg => (Raise (Error msg), log ConfigRead st)
    | NoConfig => (Raise (Error (py "FileNotFoundError")), log ConfigRead st)
    end.

(** [def get_aws_profiles()] *)
Definition get_aws_profiles : M (list str) :=
  found <- config_exists ;;
  if negb found then
    print ConfigNotFound ;;
    sys_exit 1
  else
    try_except
      (content <- read_config ;;
       ret (profiles_of_content content))
      (fun e =>
         print (ConfigReadError e) ;;
         sys_exit 1).

(** ** Launching the scanner

    [# Build the command] and [# Add optional date parameters], the same
    text in both scripts but for the value of [--log-file-name]. *)
Definition command (h : host) (region : str) (start_date end_date : option str)
    (log_name : str) : list str :=
  let cmd := [executable h; py "deployment-scanner.py";
              py "--region"; region;
              py "--log-file-name"; log_name] in
  let cmd := if truthy_opt start_date
             then cmd ++ [py "--start-date"; default [] start_date]
             else cmd in
  let cmd := if truthy_opt end_date
             then cmd ++ [py "--end-date"; default [] end_date]
             else cmd in
  cmd.

(** ** [run-multi-account-scan.py]: one CSV file per profile *)
Module PerProfile.

(** The namespace that [parser.parse_args()] returns. *)
Record args : Type := Args {
  region : str;
  start_date : option str;
  end_date : option str;
  log_file_name : str;
  profiles : option str;
  dry_run : bool
}.

(** [f"{args.log_file_name}_{profile}.csv"] *)
Definition log_file (a : args) (profile : str) : str :=
  log_file_name a ++ py "_" ++ profile ++ py ".csv".

Section Driver.
Variable h : host.

(** [def run_deployment_scanner(profile, region, start_date, end_date,
    log_file_name)] *)
Definition run_deployment_scanner (profile region : str)
    (start_date end_date : option str) (log_file_name : str) : M unit :=
  print BlankRule ;;
  print (ProcessingAwsProfile profile) ;;
  print Rule ;;
  let cmd := command h region start_date end_date
               (log_file_name ++ py "_" ++ profile) in
  (* Set AWS_PROFILE environment variable *)
  env <- dict_copy OsEnviron ;;
  dict_set env (py "AWS_PROFILE") profile ;;
  try_except
    ((* Run the deployment scanner *)
     result <- subprocess_run h cmd env (script_dir h) 300 ;;
     let '(returncode, stdout, stderr) := result in
     if (returncode =? 0)%Z then
       print (Succeeded profile) ;;
       when (truthy stdout)
         (print OutputLabel ;;
          print (Text stdout))
     else
       print (ErrorProcessing profile) ;;
       print (ErrorText stderr))
    (fun e =>
       match e with
       | TimeoutExpired => print (Timeout profile)
       | _ => print (ExceptionProcessing profile e)
       end).

(** [# Validate date arguments] *)
Definition validate_dates (a : args) : M unit :=
  if bool_decide (start_date a ≠ None) && bool_decide (end_date a = None)
  then
    print NeedEndDate ;;
    sys_exit 1
  else if bool_decide (start_date a = None)
          && bool_decide (end_date a ≠ None)
  then
    print NeedStartDate ;;
    sys_exit 1
  else ret tt.

(** [# Get profiles to process] *)
Definition resolve_profiles (a : args) : M (list str) :=
  profiles_to_process <-
    (if truthy_opt (profiles a) then
       (* Use specified profiles *)
       let profiles_to_process :=
         strip <$> split comma (default [] (profiles a)) in
       print (UsingSpecified profiles_to_process) ;;
       ret profiles_to_process
     else
       (* Get all profiles from config *)
       all_profiles <- get_aws_profiles ;;
       print (FoundProfiles (length all_profiles) all_profiles) ;;
       ret all_profiles) ;;
  if negb (truthy profiles_to_process) then
    print NoProfilesFound ;;
    sys_exit 1
  else ret profiles_to_process.

(** [# Show what will be processed] *)
Definition show_configuration (a : args) (profiles_to_process : list str)
    : M unit :=
  print ConfigurationLabel ;;
  print (RegionLine (region a)) ;;
  print (BaseLogLine (log_file_name a)) ;;
  (if truthy_opt (start_date a) && truthy_opt (end_date a)
   then print (DateRange (default [] (start_date a))
                         (default [] (end_date a)))
   else print DateRangeDefault) ;;
  print (ProfilesToProcess profiles_to_process).

(** [if args.dry_run:], the body before its [return] *)
Definition dry_run_report (a : args) (profiles_to_process : list str)
    : M unit :=
  print (DryRun (length profiles_to_process)) ;;
  for_each profiles_to_process (fun profile =>
    print (DryRunTarget profile (log_file a profile))).

(** One turn of [for i, profile in enumerate(profiles_to_process, 1)],
    on the lists [successful_profiles] and [failed_profiles]. *)
Definition process_profile (a : args) (n i : nat) (profile : str)
    (acc : list str * list str) : M (list str * list str) :=
  let '(successful_profiles, failed_profiles) := acc in
  print (Progress i n profile) ;;
  try_except
    (run_deployment_scanner profile (region a) (start_date a)
       (end_date a) (log_file_name a) ;;
     ret (successful_profiles ++ [profile], failed_profiles))
    (fun e =>
       print (FailedToProcess profile e) ;;
       ret (successful_profiles, failed_profiles ++ [profile])).

(** [# Process each profile]: the [for] loop from index [i] on. *)
Fixpoint process_profiles (a : args) (n i : nat) (ps : list str)
    (acc : list str * list str) : M (list str * list str) :=
  match ps with
  | [] => ret acc
  | profile :: ps' =>
      acc' <- process_profile a n i profile acc ;;
      process_profiles a n (S i) ps' acc'
  end.

(** [# Summary] *)
Definition summary (a : args)
    (profiles_to_process successful_profiles failed_profiles : list str)
    : M unit :=
  print BlankRule ;;
  print ScanCompleted ;;
  print Rule ;;
  print (Total (length profiles_to_process)) ;;
  print (Successful (length successful_profiles)) ;;
  print (Failed (length failed_profiles)) ;;
  when (truthy successful_profiles)
    (print SuccessfulLabel ;;
     for_each successful_profiles (fun profile =>
       print (SuccessfulTarget profile (log_file a profile)))) ;;
  when (truthy failed_profiles)
    (print FailedLabel ;;
     for_each failed_profiles (fun profile =>
       print (FailedProfile profile))) ;;
  print AllGenerated.

(** [def main()], from [args = parser.parse_args()] on. *)
Definition main (a : args) : M unit :=
  validate_dates a ;;
  profiles_to_process <- resolve_profiles a ;;
  show_configuration a profiles_to_process ;;
  if dry_run a then
    dry_run_report a profiles_to_process
  else
    print (Starting (length profiles_to_process)) ;;
    acc <- process_profiles a (length profiles_to_process) 1
             profiles_to_process ([], []) ;;
    let '(successful_profiles, failed_profiles) := acc in
    summary a profiles_to_process successful_profiles failed_profiles.

End Driver.
End PerProfile.

(** ** [run-multi-account-scan-single-csv.py]: one combined CSV file *)
Module SingleCsv.

(** The namespace that [parser.parse_args()] returns. *)
Record args : Type := Args {
  region : str;
  start_date : option str;
  end_date : option str;
  output_file : str;
  profiles : option str;
  dry_run : bool
}.

(** [f"temp_{profile}"] *)
Definition temp_log_file (profile : str) : str := py "temp_" ++ profile.

(** [f"{temp_log_file}.csv"] *)
Definition csv_file (temp_log_file : str) : str := temp_log_file ++ py ".csv".

(** [# Get headers from first non-empty dataset] *)
Fixpoint first_header (all_data : list (list row)) : option row :=
  match all_data with
  | [] => None
  | data :: rest =>
      if truthy data && (0 <? length data)%nat
      then head data
      else first_header rest
  end.

(** [# Write all data rows]: the rows that the loop hands to
    [writer.writerow], in order. *)
Fixpoint data_rows (all_data : list (list row)) : list row :=
  match all_data with
  | [] => []
  | data :: rest =>
      (if truthy data && (1 <? length data)%nat
       then drop 1 data
       else [])
      ++ data_rows rest
  end.

Section Driver.
Variable h : host.

(** [def write_combined_csv(all_data, output_file)] *)
Definition write_combined_csv (all_data : list (list row))
    (output_file : str) : M unit :=
  if negb (truthy all_data) then
    print NoDataToWrite
  else
    let headers := first_header all_data in
    if negb (truthy_opt headers) then
      print NoValidHeaders
    else
      write_csv h output_file (default [] headers :: data_rows all_data) ;;
      print (CombinedWritten output_file).

(** [def run_deployment_scanner_and_parse_csv(profile, region,
    start_date, end_date, temp_log_file)] *)
Definition run_deployment_scanner_and_parse_csv (profile region : str)
    (start_date end_date : option str) (temp_log_file : str)
    : M (list row) :=
  print BlankRule ;;
  print (ProcessingAwsProfile profile) ;;
  print Rule ;;
  let cmd := command h region start_date end_date temp_log_file in
  (* Set AWS_PROFILE environment variable *)
  env <- dict_copy OsEnviron ;;
  dict_set env (py "AWS_PROFILE") profile ;;
  try_except
    ((* Run the deployment scanner *)
     result <- subprocess_run h cmd env (script_dir h) 300 ;;
     let '(returncode, stdout, stderr) := result in
     if (returncode =? 0)%Z then
       print (Succeeded profile) ;;
       when (truthy stdout)
         (print OutputLabel ;;
          print (Text stdout)) ;;
       (* Read and return CSV data *)
       let csv_file := csv_file temp_log_file in
       found <- path_exists csv_file ;;
       if found then
         rows <- read_csv h csv_file ;;
         (* Remove temporary CSV file *)
         os_remove h csv_file ;;
         ret rows
       else
         print (CsvNotFound profile) ;;
         ret []
     else
       print (ErrorProcessing profile) ;;
       print (ErrorText stderr) ;;
       ret [])
    (fun e =>
       match e with
       | TimeoutExpired =>
           print (Timeout profile) ;;
           ret []
       | _ =>
           print (ExceptionProcessing profile e) ;;
           ret []
       end).

(** [# Validate date arguments] *)
Definition validate_dates (a : args) : M unit :=
  if bool_decide (start_date a ≠ None) && bool_decide (end_date a = None)
  then
    print NeedEndDate ;;
    sys_exit 1
  else if bool_decide (start_date a = None)
          && bool_decide (end_date a ≠ None)
  then
    print NeedStartDate ;;
    sys_exit 1
  else ret tt.

(** [# Get profiles to process] *)
Definition resolve_profiles (a : args) : M (list str) :=
  profiles_to_process <-
    (if truthy_opt (profiles a) then
       (* Use specified profiles *)
       let profiles_to_process :=
         strip <$> split comma (default [] (profiles a)) in
       print (UsingSpecified profiles_to_process) ;;
       ret profiles_to_process
     else
       (* Get all profiles from config *)
       all_profiles <- get_aws_profiles ;;
       print (FoundProfiles (length all_profiles) all_profiles) ;;
       ret all_profiles) ;;
  if negb (truthy profiles_to_process) then
    print NoProfilesFound ;;
    sys_exit 1
  else ret profiles_to_process.

(** [# Show what will be processed] *)
Definition show_configuration (a : args) (profiles_to_process : list str)
    : M unit :=
  print ConfigurationLabel ;;
  print (RegionLine (region a)) ;;
  print (OutputFileLine (output_file a)) ;;
  (if truthy_opt (start_date a) && truthy_opt (end_date a)
   then print (DateRange (default [] (start_date a))
                         (default [] (end_date a)))
   else print DateRangeDefault) ;;
  print (ProfilesToProcess profiles_to_process).

(** [if args.dry_run:], the body before its [return] *)
Definition dry_run_report (a : args) (profiles_to_process : list str)
    : M unit :=
  print (DryRun (length profiles_to_process)) ;;
  for_each profiles_to_process (fun profile =>
    print (DryRunProfile profile)) ;;
  print (DryRunCombined (output_file a)).

(** The lists that the loop fills. *)
Record tally : Type := Tally {
  successful_profiles : list str;
  failed_profiles : list str;
  all_csv_data : list (list row)
}.

(** One turn of [for i, profile in enumerate(profiles_to_process, 1)]. *)
Definition process_profile (a : args) (n i : nat) (profile : str)
    (acc : tally) : M tally :=
  print (Progress i n profile) ;;
  (* Create temporary log file name for this profile *)
  let temp_log_file := temp_log_file profile in
  try_except
    (csv_data <- run_deployment_scanner_and_parse_csv profile (region a)
                   (start_date a) (end_date a) temp_log_file ;;
     if truthy csv_data then
       ret (Tally (successful_profiles acc ++ [profile])
                  (failed_profiles acc)
                  (all_csv_data acc ++ [csv_data]))
     else
       ret (Tally (successful_profiles acc)
                  (failed_profiles acc ++ [profile])
                  (all_csv_data acc)))
    (fun e =>
       print (FailedToProcess profile e) ;;
       ret (Tally (successful_profiles acc)
                  (failed_profiles acc ++ [profile])
                  (all_csv_data acc))).

(** [# Process each profile]: the [for] loop from index [i] on. *)
Fixpoint process_profiles (a : args) (n i : nat) (ps : list str)
    (acc : tally) : M tally :=
  match ps with
  | [] => ret acc
  | profile :: ps' =>
      acc' <- process_profile a n i profile acc ;;
      process_profiles a n (S i) ps' acc'
  end.

(** [# Summary] *)
Definition summary (a : args) (profiles_to_process : list str)
    (acc : tally) : M unit :=
  print BlankRule ;;
  print ScanCompleted ;;
  print Rule ;;
  print (Total (length profiles_to_process)) ;;
  print (Successful (length (successful_profiles acc))) ;;
  print (Failed (length (failed_profiles acc))) ;;
  when (truthy (successful_profiles acc))
    (print SuccessfulLabel ;;
     for_each (successful_profiles acc) (fun profile =>
       print (SuccessfulProfile profile))) ;;
  when (truthy (failed_profiles acc))
    (print FailedLabel ;;
     for_each (failed_profiles acc) (fun profile =>
       print (FailedProfile profile))) ;;
  print (CombinedFileLine (output_file a)).

(** [def main()], from [args = parser.parse_args()] on. *)
Definition main (a : args) : M unit :=
  validate_dates a ;;
  profiles_to_process <- resolve_profiles a ;;
  show_configuration a profiles_to_process ;;
  if dry_run a then
    dry_run_report a profiles_to_process
  else
    print (Starting (length profiles_to_process)) ;;
    acc <- process_profiles a (length profiles_to_process) 1
             profiles_to_process (Tally [] [] []) ;;
    (* Write combined CSV *)
    when (truthy (all_csv_data acc))
      (write_combined_csv (all_csv_data acc) (output_file a)) ;;
    summary a profiles_to_process acc.

End Driver.
End SingleCsv.

(** * Properties *)

(** ** Vocabulary of the statements *)

(** A string that does not start with white space. *)
Definition left_trimmed (s : str) : Prop :=
  match s with
  | c :: _ => is_space c = false
  | [] => True
  end.

(** The next character, if any, is outside the class [p]. *)
Definition stops (p : N → bool) (s : str) : Prop :=
  match s with
  | c :: _ => p c = false
  | [] => True
  end.

(** Whether the position behind [w] starts a line, when the position in
    front of it does so according to [b]. *)
Fixpoint bol_after (b : bool) (w : str) : bool :=
  match w with
  | [] => b
  | c :: w' => bol_after (is_newline c) w'
  end.

(** The two parts of [profile_pattern] behind the opening bracket. *)
Definition not_rbracket (c : N) : bool := negb (c =? rbracket).

Definition keyword_part : Re.t :=
  Re.Seq (Re.word (py "profile")) (Re.Plus is_space).

Definition name_part : Re.t :=
  Re.Seq (Re.Grp (Re.Plus not_rbracket)) (Re.Chr rbracket).

(** The text in front of a section line: nothing, or lines without an
    opening bracket. *)
Definition plain_lines (pre : str) : Prop :=
  (lbracket ∉ pre) ∧ (pre = [] ∨ ∃ p, pre = p ++ [newline]).

(** A configuration file given by its lines. *)
Definition text (ls : list str) : str :=
  concat ((λ l, l ++ [newline]) <$> ls).

(** A state in which the configuration file holds [content]. *)
Definition with_config (content : str) : state :=
  State ∅ [] (Config content) ∅ [].

(** The environment of the child: a copy of [os.environ] in which
    [AWS_PROFILE] is set. *)
Definition child_env (profile : str) (st : state) : gmap str str :=
  <[py "AWS_PROFILE" := profile]> (environ st).

(** The call [subprocess.run(cmd, env=env, cwd=..., timeout=300)] that a
    script makes for [profile] in state [st]. *)
Definition scan_call (h : host) (region : str) (start_date end_date : option str)
    (log_name profile : str) (st : state) : invocation :=
  Invocation (command h region start_date end_date log_name)
    (child_env profile st) (script_dir h) 300.

(** The lines printed about the result of the child process. *)
Definition report_lines (profile : str) (r : proc_result) : list line :=
  match r with
  | Completed rc out err =>
      if (rc =? 0)%Z
      then Succeeded profile
           :: (if truthy out then [OutputLabel; Text out] else [])
      else [ErrorProcessing profile; ErrorText err]
  | TimedOut => [Timeout profile]
  | LaunchFailed msg => [ExceptionProcessing profile (Error msg)]
  end.

(** The error, if any, of reading the file [csv] and then removing it,
    after [n] runs of the scanner and in the directory [fs]. *)
Definition collect_error (h : host) (n : nat) (csv : str)
    (fs : gmap str (list row)) : option str :=
  match read_error h n csv fs with
  | Some msg => Some msg
  | None => remove_error h n csv fs
  end.

(** What the combined-CSV script does after the [n]-th run of the
    scanner: the rows it returns, the events, and the files it leaves. *)
Definition collected_rows (h : host) (n : nat) (csv : str)
    (r : proc_result * gmap str (list row)) : list row :=
  match r.1 with
  | Completed rc _ _ =>
      if (rc =? 0)%Z
      then match collect_error h n csv r.2 with
           | None => default [] (r.2 !! csv)
           | Some _ => []
           end
      else []
  | _ => []
  end.

Definition collect_events (h : host) (n : nat) (profile csv : str)
    (r : proc_result * gmap str (list row)) : list event :=
  match r.1 with
  | Completed rc _ _ =>
      if (rc =? 0)%Z
      then match r.2 !! csv with
           | Some _ =>
               match read_error h n csv r.2, remove_error h n csv r.2 with
               | Some msg, _ =>
                   [FileRead csv;
                    Print (ExceptionProcessing profile (Error msg))]
               | None, Some msg =>
                   [FileRead csv; FileRemove csv;
                    Print (ExceptionProcessing profile (Error msg))]
               | None, None => [FileRead csv; FileRemove csv]
               end
           | None => [Print (CsvNotFound profile)]
           end
      else []
  | _ => []
  end.

Definition files_left (h : host) (n : nat) (csv : str)
    (r : proc_result * gmap str (list row)) : gmap str (list row) :=
  match r.1 with
  | Completed rc _ _ =>
      if (rc =? 0)%Z
      then match collect_error h n csv r.2 with
           | None => delete csv r.2
           | Some _ => r.2
           end
      else r.2
  | _ => r.2
  end.

(** Looking at the configuration file. *)
Definition is_config_event (e : event) : bool :=
  match e with ConfigStat | ConfigRead => true | _ => false end.

(** The events that can change the directory of CSV files. *)
Definition file_change (e : event) : bool :=
  match e with Spawn _ | FileRemove _ | FileWrite _ _ => true | _ => false end.

(** The lines printed up to the end of [# Show what will be processed]. *)
Definition preflight_line (l : line) : bool :=
  match l with
  | ConfigNotFound | ConfigReadError _ | NeedEndDate | NeedStartDate
  | UsingSpecified _ | FoundProfiles _ _ | NoProfilesFound
  | ConfigurationLabel | RegionLine _ | BaseLogLine _ | OutputFileLine _
  | DateRange _ _ | DateRangeDefault | ProfilesToProcess _ => true
  | _ => false
  end.

(** The lines of a dry run: those, and the plan. *)
Definition plan_line (l : line) : bool :=
  preflight_line l
  || match l with
     | DryRun _ | DryRunTarget _ _ | DryRunProfile _ | DryRunCombined _ => true
     | _ => false
     end.

(** Printing such a line. *)
Definition preflight_print (e : event) : bool :=
  match e with Print l => preflight_line l | _ => false end.

Definition plan_print (e : event) : bool :=
  match e with Print l => plan_line l | _ => false end.

(** A dry run prints its lines and looks at the configuration file. *)
Definition plan_event (e : event) : bool := plan_print e || is_config_event e.

(** Everything but looking at the configuration file. *)
Definition run_event (e : event) : bool := negb (is_config_event e).

(** No restriction. *)
Definition any_event (e : event) : bool := true.

(** [st'] comes after [st]: [os.environ] and the configuration file are
    the same, the trace has grown by events of class [cls], and the CSV
    files are the same unless one of these events can change them. *)
Definition after (cls : event → bool) (st st' : state) : Prop :=
  environ st' = environ st
  ∧ config st' = config st
  ∧ ∃ evs,
      trace st' = trace st ++ evs
      ∧ Forall (λ e, cls e = true) evs
      ∧ (Forall (λ e, file_change e = false) evs → files st' = files st).

(** Every run of [m] stays within [cls]. *)
Definition keeps (cls : event → bool) {A} (m : M A) : Prop :=
  ∀ st, after cls st (m st).2.

(** Every run of [m] ends normally: no exception, no [sys.exit]. *)
Definition returns {A} (m : M A) : Prop := ∀ st, ∃ a, (m st).1 = Val a.

(** The rows that a turn of the loop of the combined-CSV script gets for
    [profile] in state [st]. *)
Definition turn_rows (h : host) (a : SingleCsv.args) (profile : str)
    (st : state) : list row :=
  let tmp := SingleCsv.temp_log_file profile in
  collected_rows h (S (length (spawned (trace st)))) (SingleCsv.csv_file tmp)
    (scanner h (length (spawned (trace st)))
       (scan_call h (SingleCsv.region a) (SingleCsv.start_date a)
          (SingleCsv.end_date a) tmp profile st)
       (files st)).

(** The run up to the list of profiles to process. *)
Definition pp_preflight (a : PerProfile.args) : M (list str) :=
  PerProfile.validate_dates a ;;
  PerProfile.resolve_profiles a.

Definition sc_preflight (a : SingleCsv.args) : M (list str) :=
  SingleCsv.validate_dates a ;;
  SingleCsv.resolve_profiles a.

(** The rest of [main] once the profiles are known. *)
Definition pp_rest (h : host) (a : PerProfile.args) (ps : list str) : M unit :=
  PerProfile.show_configuration a ps ;;
  if PerProfile.dry_run a then
    PerProfile.dry_run_report a ps
  else
    print (Starting (length ps)) ;;
    acc <- PerProfile.process_profiles h a (length ps) 1 ps ([], []) ;;
    let '(successful_profiles, failed_profiles) := acc in
    PerProfile.summary a ps successful_profiles failed_profiles.

Definition sc_rest (h : host) (a : SingleCsv.args) (ps : list str) : M unit :=
  SingleCsv.show_configuration a ps ;;
  if SingleCsv.dry_run a then
    SingleCsv.dry_run_report a ps
  else
    print (Starting (length ps)) ;;
    acc <- SingleCsv.process_profiles h a (length ps) 1 ps
             (SingleCsv.Tally [] [] []) ;;
    when (truthy (SingleCsv.all_csv_data acc))
      (SingleCsv.write_combined_csv h (SingleCsv.all_csv_data acc)
         (SingleCsv.output_file a)) ;;
    SingleCsv.summary a ps acc.

(** Exactly one of [--start-date] and [--end-date] is given. *)
Definition one_date_only (s e : option str) : Prop :=
  (s ≠ None ∧ e = None) ∨ (s = None ∧ e ≠ None).

(** A host with the scanner [scan] on which no file operation raises. *)
Definition reliable_host
    (scan : nat → invocation → gmap str (list row)
            → proc_result * gmap str (list row)) : host :=
  Host (py "/usr/bin/python3") (py "/opt/scanner") scan
    (λ _ _ _, None) (λ _ _ _, None) (λ _ _ _ _, None).

(** A host whose scanner exits with code 0 and writes nothing. *)
Definition sample_host : host :=
  reliable_host (λ _ _ fs, (Completed 0 [] [], fs)).

(** No environment variable, no configuration file, no CSV file, nothing
    done yet. *)
Definition empty_state : state := State ∅ [] NoConfig ∅ [].

(** A host whose scanner fails for every profile. *)
Definition failing_host : host :=
  reliable_host (λ _ _ fs, (Completed 1 [] (py "AccessDenied"), fs)).

(** The state with more events in its trace and nothing else changed. *)
Definition emit_all (evs : list event) (st : state) : state :=
  State (environ st) (heap st) (config st) (files st) (trace st ++ evs).

(** A host whose scanner never finishes within the timeout. *)
Definition timeout_host : host := reliable_host (λ _ _ fs, (TimedOut, fs)).

(** [sep.join(l)] for a one-character separator. *)
Fixpoint join (sep : N) (l : list str) : str :=
  match l with
  | [] => []
  | [x] => x
  | x :: l' => x ++ sep :: join sep l'
  end.

(** A string without white space at either end. *)
Definition trimmed (s : str) : Prop := left_trimmed s ∧ left_trimmed (rev s).

(** A host whose scanner never exits with code 0. *)
Definition never_succeeds (h : host) : Prop :=
  ∀ n i fs,
    match (scanner h n i fs).1 with
    | Completed rc _ _ => rc ≠ 0%Z
    | _ => True
    end.

(** Everything but reading, removing and writing a CSV file. *)
Definition no_file_op (e : event) : bool :=
  match e with
  | FileRead _ | FileRemove _ | FileWrite _ _ => false
  | _ => true
  end.

(** A section of a configuration file as the AWS tools write it: the
    header line [[name]] or [[profile name]], and the text up to the next
    header. *)
Inductive header : Type :=
| Plain (name : str)
| Keyword (name : str).

Definition header_name (hd : header) : str :=
  match hd with Plain name | Keyword name => name end.

Definition render_header (hd : header) : str :=
  match hd with
  | Plain name => lbracket :: name ++ [rbracket]
  | Keyword name => py "[profile " ++ name ++ [rbracket]
  end.

Definition render_sections (secs : list (header * str)) : str :=
  concat ((λ sec, render_header sec.1 ++ sec.2) <$> secs).

(** The name has no closing bracket and is not blank, a plain name does
    not start with the keyword and white space, and the text behind the
    header has no opening bracket and ends its last line. *)
Definition well_formed (sec : header * str) : Prop :=
  (rbracket ∉ header_name sec.1)
  ∧ strip (header_name sec.1) ≠ []
  ∧ match sec.1 with
    | Plain name => ∀ c u, name = py "profile" ++ c :: u → is_space c = false
    | Keyword _ => True
    end
  ∧ (lbracket ∉ sec.2)
  ∧ ∃ b, sec.2 = b ++ [newline].

(** What the group captures on a header. *)
Definition captured (hd : header) : str :=
  match hd with
  | Plain name => name
  | Keyword name => lstrip name
  end.

(** Printing a line. *)
Definition only_print (e : event) : bool :=
  match e with Print _ => true | _ => false end.

(** A host whose scanner exits with code 0 and writes, for the profile in
    [AWS_PROFILE], a CSV file with a header and one row that names the
    profile. *)
Definition writing_host : host :=
  reliable_host
    (λ _ i fs,
       let p := default [] (env i !! py "AWS_PROFILE") in
       (Completed 0 [] [],
        <[py "temp_" ++ p ++ py ".csv"
          := [[py "cluster"; py "cost"]; [p; py "10"]]]> fs)).

(** The lines printed so far. *)
Definition printed (tr : list event) : list line :=
  omap (λ e, match e with Print l => Some l | _ => None end) tr.

(** The value of [AWS_PROFILE] in each launch of the scanner so far. *)
Definition launched (tr : list event) : list (option str) :=
  (λ i, env i !! py "AWS_PROFILE") <$> spawned tr.

(** The file that the scanner writes for [profile] when the per-profile
    script was given the base name [base]. *)
Definition profile_csv (base profile : str) : str :=
  base ++ py "_" ++ profile ++ py ".csv".

(** A list of profiles in the summary: nothing for no profile, else a
    label and one line for each profile. *)
Definition listing (label : line) (entry : str → line) (ps : list str)
    : list line :=
  match ps with
  | [] => []
  | _ => label :: (entry <$> ps)
  end.

(** The summary of a run over the profiles [ps] in which the loop ended
    with the successful profiles [s] and the failed profiles [f]: the
    three counts, the successful profiles, the failed profiles, and a
    closing line. *)
Definition summary_lines (ps s f : list str) (entry : str → line)
    (closing : line) : list line :=
  [BlankRule; ScanCompleted; Rule;
   Total (length ps); Successful (length s); Failed (length f)]
  ++ listing SuccessfulLabel entry s
  ++ listing FailedLabel FailedProfile f
  ++ [closing].

Definition pp_summary_lines (a : PerProfile.args) (ps s f : list str)
    : list line :=
  summary_lines ps s f
    (λ p, SuccessfulTarget p (profile_csv (PerProfile.log_file_name a) p))
    AllGenerated.

Definition sc_summary_lines (a : SingleCsv.args) (ps : list str)
    (acc : SingleCsv.tally) : list line :=
  summary_lines ps (SingleCsv.successful_profiles acc)
    (SingleCsv.failed_profiles acc) SuccessfulProfile
    (CombinedFileLine (SingleCsv.output_file a)).


Definition sc_loop_start (a : SingleCsv.args) (ps : list str) (st1 : state)
    : state :=
  log (Print (Starting (length ps))) (SingleCsv.show_configuration a ps st1).2.

(** The rows that go to the combined file for the lists of rows
    [all_data]: the first row of the first list that has a row, and the
    rows behind the first row of every list; none when no list has a row
    or that first row has no field. *)
Definition rows_to_write (all_data : list (list row)) : option (list row) :=
  match concat (take 1 <$> all_data) with
  | (field :: fields) :: _ =>
      Some ((field :: fields) :: concat (drop 1 <$> all_data))
  | _ => None
  end.

(** What a failed write leaves at [path]. *)
Definition after_fault (fault : write_fault) (path : str)
    (fs : gmap str (list row)) : gmap str (list row) :=
  match fault with
  | OpenFailed _ => fs
  | WriteFailed _ partial => <[path := partial]> fs
  end.

Definition fault_message (fault : write_fault) : str :=
  match fault with OpenFailed msg | WriteFailed msg _ => msg end.


(** The host [writing_host] on which the CSV files of the scanner cannot
    be read. *)
Definition unreadable_host : host :=
  Host (executable writing_host) (script_dir writing_host)
    (scanner writing_host) (λ _ _ _, Some (py "PermissionError"))
    (λ _ _ _, None) (λ _ _ _ _, None).

(** The host [writing_host] on which the CSV files of the scanner cannot
    be removed. *)
Definition unremovable_host : host :=
  Host (executable writing_host) (script_dir writing_host)
    (scanner writing_host) (λ _ _ _, None)
    (λ _ _ _, Some (py "PermissionError")) (λ _ _ _ _, None).

(** ** Strings *)

Lemma lstrip_suffix s : ∃ w, s = w ++ lstrip s.
Proof.
  induction s as [|c s [w IH]]; simpl.
  - by exists [].
  - destruct (is_space c).
    + exists (c :: w). by rewrite IH at 1.
    + by exists [].
Qed.

Lemma lstrip_left_trimmed s : left_trimmed (lstrip s).
Proof.
  induction s as [|c s IH]; simpl; [done|].
  destruct (is_space c) eqn:E; [done|]. exact E.
Qed.

Lemma lstrip_fixed s : left_trimmed s → lstrip s = s.
Proof. destruct s as [|c s]; simpl; [done|]. by intros ->. Qed.

Lemma lstrip_idem s : lstrip (lstrip s) = lstrip s.
Proof. apply lstrip_fixed, lstrip_left_trimmed. Qed.

Lemma rstrip_prefix s : ∃ w, s = rstrip s ++ w.
Proof.
  unfold rstrip. destruct (lstrip_suffix (rev s)) as [w Hw].
  exists (rev w). rewrite <- rev_app_distr, <- Hw. by rewrite rev_involutive.
Qed.

Lemma rstrip_idem s : rstrip (rstrip s) = rstrip s.
Proof. unfold rstrip. by rewrite rev_involutive, lstrip_idem. Qed.

Lemma rstrip_left_trimmed s : left_trimmed s → left_trimmed (rstrip s).
Proof.
  intros H. destruct (rstrip_prefix s) as [w Hw].
  destruct (rstrip s) as [|c r]; [done|].
  rewrite Hw in H. exact H.
Qed.

Lemma strip_lstrip s : strip (lstrip s) = strip s.
Proof. unfold strip. by rewrite lstrip_idem. Qed.

(** Stripping a stripped string changes nothing. *)
Lemma strip_idem s : strip (strip s) = strip s.
Proof.
  unfold strip at 1.
  rewrite (lstrip_fixed (strip s)).
  - unfold strip. apply rstrip_idem.
  - apply rstrip_left_trimmed, lstrip_left_trimmed.
Qed.

Lemma starts_with_spec p s :
  starts_with p s = true ↔ ∃ post, s = p ++ post.
Proof.
  revert s. induction p as [|a p IH]; intros s; simpl.
  - split; [intros _; by exists s | done].
  - destruct s as [|b s].
    + split; [done | intros [post H]; discriminate].
    + rewrite andb_true_iff, N.eqb_eq, IH. split.
      * intros [-> [post ->]]. by exists post.
      * intros [post H]. injection H as -> ->. eauto.
Qed.

(** [contains] is the substring test. *)
Lemma contains_spec sub s :
  contains sub s = true ↔ ∃ pre post, s = pre ++ sub ++ post.
Proof.
  induction s as [|c s IH].
  - simpl. rewrite orb_false_r, starts_with_spec. split.
    + intros [post H]. by exists [], post.
    + intros [pre [post H]]. destruct pre; [by exists post|discriminate].
  - cbn [contains]. rewrite orb_true_iff, starts_with_spec, IH. split.
    + intros [[post H]|[pre [post H]]].
      * by exists [], post.
      * exists (c :: pre), post. by rewrite H.
    + intros [pre [post H]]. destruct pre as [|c' pre].
      * left. by exists post.
      * right. injection H as -> H. by exists pre, post.
Qed.

Lemma split_not_nil sep s : split sep s ≠ [].
Proof.
  destruct s as [|c s]; simpl; [done|].
  destruct (c =? sep); [done|]. by destruct (split sep s).
Qed.

Lemma truthy_true {A} (l : list A) : truthy l = true ↔ l ≠ [].
Proof. by destruct l. Qed.

(** ** Profile discovery *)

(** The loop over the matches keeps, in order and with repetitions, the
    stripped matches that are neither empty nor ["default"]. *)
Lemma named_profiles_filter ms :
  named_profiles ms
  = strip <$> filter (λ m, strip m ≠ [] ∧ strip m ≠ py "default") ms.
Proof.
  induction ms as [|m ms IH]; [done|].
  cbn [named_profiles]. rewrite filter_cons.
  destruct (truthy (strip m)) eqn:Et; cbn [andb].
  - apply truthy_true in Et.
    destruct (bool_decide_reflect (strip m = py "default")) as [Ed|Ed];
      cbn [negb].
    + rewrite decide_False by tauto. exact IH.
    + rewrite decide_True by tauto. rewrite fmap_cons. by f_equal.
  - rewrite decide_False; [exact IH|].
    intros [Hn _]. apply truthy_true in Hn. congruence.
Qed.

Lemma named_profiles_Forall ms :
  Forall (λ p, strip p = p ∧ p ≠ [] ∧ p ≠ py "default") (named_profiles ms).
Proof.
  rewrite named_profiles_filter. apply Forall_fmap, Forall_forall.
  intros m Hm. apply list_elem_of_filter in Hm as [[H1 H2] _].
  split; [apply strip_idem|done].
Qed.

(** With the configuration file in place, [get_aws_profiles] returns what
    the body of its [try] block computes from the text. *)
Lemma get_aws_profiles_content st content :
  config st = Config content →
  get_aws_profiles st
  = (Val (profiles_of_content content), log ConfigRead (log ConfigStat st)).
Proof.
  intros H.
  unfold get_aws_profiles, bind, try_except, ret, config_exists, read_config.
  rewrite H. cbn. by rewrite H.
Qed.

(** ** The matcher on a section line *)

Lemma plus_stops {R} p g s (k : Re.cursor → option R) :
  stops p s → Re.plus p g s k = None.
Proof. destruct s as [|c s]; simpl; [done|]. by intros ->. Qed.

(** A run of the class followed by a character outside it: when the rest
    of the pattern matches after the whole run, that is the match. *)
Lemma plus_greedy {R} p g a s (k : Re.cursor → option R) r :
  a ≠ [] →
  Forall (λ c, p c = true) a →
  stops p s →
  (∀ b, k (Re.Cursor b s g) = Some r) →
  Re.plus p g (a ++ s) k = Some r.
Proof.
  intros Ha Hp Hs Hk. induction a as [|c a IH]; [done|].
  apply Forall_cons in Hp as [Hc Hp]. simpl. rewrite Hc.
  destruct a as [|c' a].
  - simpl. by rewrite plus_stops, Hk.
  - by rewrite IH.
Qed.

Lemma run_word {R} w b s g (k : Re.cursor → option R) :
  Re.run (Re.word w) (Re.Cursor b (w ++ s) g) k
  = k (Re.Cursor (bol_after b w) s g).
Proof.
  revert b. induction w as [|c w IH]; intros b; simpl; [done|].
  by rewrite N.eqb_refl, IH.
Qed.

Lemma run_word_fail {R} w b s g (k : Re.cursor → option R) :
  starts_with w s = false →
  Re.run (Re.word w) (Re.Cursor b s g) k = None.
Proof.
  revert b s. induction w as [|c w IH]; intros b s; simpl; [done|].
  destruct s as [|x s]; [done|]. rewrite (N.eqb_sym c x).
  destruct (x =? c); simpl; [apply IH | done].
Qed.

(** A word that starts [name] followed by [c], and does not contain [c],
    starts [name]. *)
Lemma starts_with_before w name c t :
  c ∉ w →
  starts_with w (name ++ c :: t) = true →
  ∃ u, name = w ++ u.
Proof.
  revert name. induction w as [|a w IH]; intros name Hc H.
  - by exists name.
  - apply not_elem_of_cons in Hc as [Hac Hc].
    destruct name as [|x name]; simpl in H;
      apply andb_true_iff in H as [Hx H]; apply N.eqb_eq in Hx.
    + congruence.
    + destruct (IH name Hc H) as [u ->]. exists u. by rewrite Hx.
Qed.

Lemma match_at_bracket s :
  Re.match_at profile_pattern true (lbracket :: s)
  = match
      Re.run keyword_part (Re.Cursor false s None)
        (λ cur, Re.run name_part cur Some)
    with
    | Some m => Some m
    | None => Re.run name_part (Re.Cursor false s None) Some
    end.
Proof. reflexivity. Qed.

(** [([^\]]+)\]] on a non-empty text without a closing bracket that a
    closing bracket follows: the group is that text, and the match ends
    behind the bracket. *)
Lemma run_name b u t g :
  rbracket ∉ u →
  u ≠ [] →
  Re.run name_part (Re.Cursor b (u ++ rbracket :: t) g) Some
  = Some (Re.Cursor false t (Some u)).
Proof.
  intros Hu Hne. cbn [name_part Re.run Re.rest Re.grp Re.bol].
  apply plus_greedy; [done | | by cbn |].
  - apply Forall_forall. intros c Hc. unfold not_rbracket.
    apply negb_true_iff, N.eqb_neq. intros ->. done.
  - intros b'. cbn. rewrite length_app. cbn [length].
    replace (length u + S (length t) - S (length t))%nat
      with (length u) by lia.
    by rewrite take_app_length.
Qed.

Lemma rbracket_not_in_keyword : rbracket ∉ py "profile".
Proof. apply (bool_decide_unpack _). by vm_compute. Qed.

(** [(?:profile\s+)?] does not apply to a name that does not start with
    the word and white space. *)
Lemma run_keyword_fail {R} b name t g (k : Re.cursor → option R) :
  (∀ c u, name = py "profile" ++ c :: u → is_space c = false) →
  Re.run keyword_part (Re.Cursor b (name ++ rbracket :: t) g) k = None.
Proof.
  intros Hname. cbn [keyword_part Re.run].
  destruct (starts_with (py "profile") (name ++ rbracket :: t)) eqn:E.
  - apply starts_with_before in E as [u ->];
      [|exact rbracket_not_in_keyword].
    rewrite <- app_assoc, run_word. cbn [Re.run Re.grp Re.rest].
    apply plus_stops. destruct u as [|c u]; [done|].
    cbn. by eapply Hname.
  - by apply run_word_fail.
Qed.

(** The pattern on [[name]] at the start of a line, whatever follows the
    closing bracket. *)
Lemma match_section name t :
  rbracket ∉ name →
  name ≠ [] →
  (∀ c u, name = py "profile" ++ c :: u → is_space c = false) →
  Re.match_at profile_pattern true (lbracket :: name ++ rbracket :: t)
  = Some (Re.Cursor false t (Some name)).
Proof.
  intros Hr Hne Hname.
  by rewrite match_at_bracket, run_keyword_fail, run_name.
Qed.

Lemma lstrip_spaces s :
  ∃ w, s = w ++ lstrip s ∧ Forall (λ c, is_space c = true) w.
Proof.
  induction s as [|c s (w & IH & Hw)]; simpl.
  - by exists [].
  - destruct (is_space c) eqn:E.
    + exists (c :: w). split; [by rewrite IH at 1 | by constructor].
    + by exists [].
Qed.

(** The pattern on [[profile name]]: the white space after the keyword is
    not part of the group. *)
Lemma match_profile_section name t :
  rbracket ∉ name →
  lstrip name ≠ [] →
  Re.match_at profile_pattern true
    (py "[profile " ++ name ++ rbracket :: t)
  = Some (Re.Cursor false t (Some (lstrip name))).
Proof.
  intros Hr Hne.
  change (py "[profile " ++ name ++ rbracket :: t)
    with (lbracket :: py "profile" ++ 32 :: name ++ rbracket :: t).
  rewrite match_at_bracket.
  destruct (lstrip_spaces name) as (w & Hw & Hsp).
  assert (rbracket ∉ lstrip name) as Hr'.
  { intros Hin. apply Hr. rewrite Hw. apply elem_of_app. by right. }
  assert (Re.run keyword_part
            (Re.Cursor false (py "profile" ++ 32 :: name ++ rbracket :: t)
               None)
            (λ cur, Re.run name_part cur Some)
          = Some (Re.Cursor false t (Some (lstrip name)))) as ->; [|done].
  cbn [keyword_part Re.run]. rewrite run_word. cbn [Re.run Re.grp Re.rest].
  rewrite Hw at 1. rewrite <- app_assoc.
  change (32 :: w ++ lstrip name ++ rbracket :: t)
    with ((32 :: w) ++ lstrip name ++ rbracket :: t).
  apply plus_greedy; [done | by constructor | |].
  - pose proof (lstrip_left_trimmed name) as Hl.
    destruct (lstrip name); [done | exact Hl].
  - intros b. by apply run_name.
Qed.

(** No match starts at a character other than the opening bracket. *)
Lemma match_at_not_bracket b c s :
  c ≠ lbracket → Re.match_at profile_pattern b (c :: s) = None.
Proof.
  intros Hc. unfold Re.match_at, profile_pattern. cbn.
  destruct b; [|done]. by rewrite (proj2 (N.eqb_neq c lbracket) Hc).
Qed.

(** The scan passes over text without an opening bracket. *)
Lemma findall_from_skip pre n b s :
  lbracket ∉ pre →
  Re.findall_from (length pre + n) profile_pattern b (pre ++ s)
  = Re.findall_from n profile_pattern (bol_after b pre) s.
Proof.
  revert b. induction pre as [|c pre IH]; intros b Hpre; [done|].
  apply not_elem_of_cons in Hpre as [Hc Hpre].
  cbn [length Nat.add app Re.findall_from bol_after].
  rewrite match_at_not_bracket by done. by apply IH.
Qed.

Lemma bol_after_app b p q : bol_after b (p ++ q) = bol_after (bol_after b p) q.
Proof. revert b. induction p as [|c p IH]; intros b; [done|]. apply IH. Qed.

Lemma plain_lines_bol pre : plain_lines pre → bol_after true pre = true.
Proof.
  intros [_ [->|[p ->]]]; [done|]. by rewrite bol_after_app.
Qed.

(** The first match found is the first element of what [findall]
    returns. *)
Lemma findall_head pre s m :
  plain_lines pre →
  Re.match_at profile_pattern true s = Some m →
  head (Re.findall profile_pattern (pre ++ s))
  = Some (default [] (Re.grp m)).
Proof.
  intros Hpre Hm. unfold Re.findall. rewrite length_app.
  replace (S (length pre + length s)) with (length pre + S (length s))%nat
    by lia.
  rewrite findall_from_skip by apply Hpre.
  rewrite (plain_lines_bol _ Hpre). cbn [Re.findall_from]. by rewrite Hm.
Qed.

Lemma profiles_head pre s c m :
  plain_lines pre →
  Re.match_at profile_pattern true s = Some m →
  Re.grp m = Some c →
  strip c ≠ [] →
  strip c ≠ py "default" →
  head (profiles_of_content (pre ++ s)) = Some (strip c).
Proof.
  intros Hpre Hm Hg Hne Hd. apply (findall_head pre) in Hm; [|done].
  rewrite Hg in Hm. unfold profiles_of_content.
  destruct (Re.findall profile_pattern (pre ++ s)) as [|c' ms]; [done|].
  cbn in Hm. injection Hm as ->. cbn [named_profiles].
  apply truthy_true in Hne. rewrite Hne.
  rewrite bool_decide_eq_false_2 by done. cbn [negb andb].
  by destruct (contains _ _).
Qed.

(** The matcher only moves forward: the rest of the pattern is tried on
    what is left of the subject. *)
Lemma plus_shrinks {R} p g s (k : Re.cursor → option R) m :
  Re.plus p g s k = Some m →
  ∃ cur, k cur = Some m ∧ (length (Re.rest cur) < length s)%nat.
Proof.
  induction s as [|c s IH]; cbn [Re.plus]; [done|].
  destruct (p c); [|done].
  destruct (Re.plus p g s k) as [m'|] eqn:E.
  - intros [= ->]. destruct (IH eq_refl) as (cur & Hk & Hl).
    exists cur. split; [done|]. cbn. lia.
  - intros Hk. eexists. split; [exact Hk|]. cbn. lia.
Qed.

Lemma run_shrinks {R} r cur (k : Re.cursor → option R) m :
  Re.run r cur k = Some m →
  ∃ cur', k cur' = Some m
          ∧ (length (Re.rest cur') ≤ length (Re.rest cur))%nat.
Proof.
  revert cur k. induction r as [| |c|p|a IHa b IHb|a IHa|a IHa];
    intros cur k; cbn [Re.run].
  - intros Hk. by exists cur.
  - destruct (Re.bol cur); [|done]. intros Hk. by exists cur.
  - destruct (Re.rest cur) as [|x s]; [done|].
    destruct (x =? c); [|done]. intros Hk.
    eexists. split; [exact Hk|]. cbn. lia.
  - intros H. apply plus_shrinks in H as (cur' & Hk & Hl).
    exists cur'. split; [done|]. lia.
  - intros H. apply IHa in H as (cur1 & H & Hl1).
    apply IHb in H as (cur2 & H & Hl2). exists cur2. split; [done|]. lia.
  - destruct (Re.run a cur k) as [m'|] eqn:E.
    + intros [= ->]. by apply IHa.
    + intros Hk. by exists cur.
  - intros H. apply IHa in H as (cur1 & H & Hl1).
    eexists. split; [exact H|]. cbn. lia.
Qed.

(** A match of [profile_pattern] is never empty, so that the scan of
    [Re.findall] always goes on from the end of the match. *)
Lemma profile_match_not_empty b s m :
  Re.match_at profile_pattern b s = Some m →
  (length (Re.rest m) < length s)%nat.
Proof.
  unfold Re.match_at.
  change (Re.run profile_pattern (Re.Cursor b s None) Some)
    with (if b
          then match s with
               | [] => None
               | x :: s' =>
                   if x =? lbracket
                   then Re.run (Re.Seq (Re.Opt keyword_part) name_part)
                          (Re.Cursor (is_newline x) s' None) Some
                   else None
               end
          else None).
  destruct b; [|done]. destruct s as [|x s]; [done|].
  destruct (x =? lbracket); [|done]. intros H.
  apply run_shrinks in H as (cur & [= ->] & Hl). cbn in *. lia.
Qed.

(** The bound on the scan in [Re.findall] is never reached: any larger
    bound gives the same list. *)
Lemma findall_from_enough n n' r b s :
  (length s < n)%nat → (length s < n')%nat →
  Re.findall_from n r b s = Re.findall_from n' r b s.
Proof.
  revert n' b s. induction n as [|n IH]; intros n' b s Hn Hn'; [lia|].
  destruct n' as [|n']; [lia|]. cbn [Re.findall_from].
  destruct (Re.match_at r b s) as [m|].
  - f_equal. case_decide.
    + apply IH; lia.
    + destruct s as [|c s]; [done|]. cbn [length] in *. apply IH; lia.
  - destruct s as [|c s]; [done|]. cbn [length] in *. apply IH; lia.
Qed.

(** C1, as the code has it: for every configuration file, profile
    discovery returns the stripped, non-empty names of the matched
    sections other than "default", in file order and with repetitions
    kept, followed by "default" once when the text "[default]" occurs in
    the file; "default" stands nowhere else in the list.  A file with the
    sections [a], [profile b] and [default] yields exactly a, b, default,
    wherever [default] stands. *)
Theorem get_aws_profiles_order st content :
  config st = Config content →
  (∃ named,
     fst (get_aws_profiles st)
     = Val (named ++ if contains (py "[default]") content
                     then [py "default"] else [])
     ∧ named
       = strip <$> filter (λ m, strip m ≠ [] ∧ strip m ≠ py "default")
                     (Re.findall profile_pattern content)
     ∧ Forall (λ p, strip p = p ∧ p ≠ [] ∧ p ≠ py "default") named)
  ∧ profiles_of_content (text [py "[a]"; py "[profile b]"; py "[default]"])
    = [py "a"; py "b"; py "default"]
  ∧ profiles_of_content
      (text [py "[default]"; py "region = us-east-1"; py "[a]"; py "[profile b]"])
    = [py "a"; py "b"; py "default"].
Proof.
  intros H. split; [|split; by vm_compute].
  exists (named_profiles (Re.findall profile_pattern content)).
  rewrite (get_aws_profiles_content _ _ H). cbn [fst].
  split; [|split].
  - unfold profiles_of_content. destruct (contains _ _); [done|].
    by rewrite app_nil_r.
  - apply named_profiles_filter.
  - apply named_profiles_Forall.
Qed.

Lemma get_aws_profiles_order_witness :
  (∃ named,
     fst (get_aws_profiles
            (with_config (text [py "[a]"; py "[profile b]"; py "[default]"])))
     = Val (named ++ if contains (py "[default]")
                          (text [py "[a]"; py "[profile b]"; py "[default]"])
                     then [py "default"] else [])
     ∧ named
       = strip <$> filter (λ m, strip m ≠ [] ∧ strip m ≠ py "default")
                     (Re.findall profile_pattern
                        (text [py "[a]"; py "[profile b]"; py "[default]"]))
     ∧ Forall (λ p, strip p = p ∧ p ≠ [] ∧ p ≠ py "default") named)
  ∧ profiles_of_content (text [py "[a]"; py "[profile b]"; py "[default]"])
    = [py "a"; py "b"; py "default"]
  ∧ profiles_of_content
      (text [py "[default]"; py "region = us-east-1"; py "[a]"; py "[profile b]"])
    = [py "a"; py "b"; py "default"].
Proof.
  apply (get_aws_profiles_order
           (with_config (text [py "[a]"; py "[profile b]"; py "[default]"]))).
  reflexivity.
Defined.

(** C1, as stated, fails: a section name declared twice is returned
    twice. *)
Lemma get_aws_profiles_repeats :
  ∃ ps,
    fst (get_aws_profiles (with_config (text [py "[a]"; py "[a]"]))) = Val ps
    ∧ ps = [py "a"; py "a"]
    ∧ ¬ NoDup ps.
Proof.
  exists [py "a"; py "a"]. split; [by vm_compute|]. split; [done|].
  intros Hd. apply NoDup_cons in Hd as [Hd _]. apply Hd. by left.
Qed.

(** C10: "default" is in the returned list exactly when the text
    "[default]" occurs somewhere in the file, in whatever context; and a
    section line [[name]] or [[profile name]], at the start of the file or
    behind lines without an opening bracket, is matched whatever text
    follows its closing bracket. *)
Theorem default_by_substring st content :
  config st = Config content →
  ∃ ps,
    fst (get_aws_profiles st) = Val ps
    ∧ (py "default" ∈ ps
       ↔ ∃ pre post, content = pre ++ py "[default]" ++ post)
    ∧ (∀ pre name t,
         plain_lines pre →
         rbracket ∉ name →
         strip name ≠ [] →
         strip name ≠ py "default" →
         (content = pre ++ lbracket :: name ++ rbracket :: t
          ∧ (∀ c u, name = py "profile" ++ c :: u → is_space c = false))
         ∨ content = pre ++ py "[profile " ++ name ++ rbracket :: t →
         head ps = Some (strip name)).
Proof.
  intros H. exists (profiles_of_content content).
  rewrite (get_aws_profiles_content _ _ H). split; [done|]. split.
  - rewrite <- contains_spec. unfold profiles_of_content.
    pose proof (named_profiles_Forall
                  (Re.findall profile_pattern content)) as Hn.
    rewrite Forall_forall in Hn.
    destruct (contains _ _); split; try done.
    + intros _. apply elem_of_app. right. by left.
    + intros Hin. by destruct (Hn _ Hin) as (_ & _ & Hd).
  - intros pre name t Hpre Hr Hne Hd [[-> Hname] | ->].
    + eapply profiles_head;
        [done
        |apply match_section; [done| |done]; intros ->; by apply Hne
        |done..].
    + rewrite <- strip_lstrip in *.
      eapply profiles_head;
        [done | apply match_profile_section; [done|] |done..].
      intros E. apply Hne. unfold strip. by rewrite lstrip_idem, E.
Qed.

Lemma default_by_substring_witness :
  let content :=
    text [py "# accounts"; py "[dev] ; payments"; py "note = [default]"] in
  ∃ ps,
    fst (get_aws_profiles (with_config content)) = Val ps
    ∧ (py "default" ∈ ps
       ↔ ∃ pre post, content = pre ++ py "[default]" ++ post)
    ∧ head ps = Some (py "dev").
Proof.
  intros content.
  destruct (default_by_substring (with_config content) content eq_refl)
    as (ps & Hps & Hd & Hs).
  exists ps. split; [exact Hps|]. split; [exact Hd|].
  apply (Hs (text [py "# accounts"]) (py "dev")
            (py " ; payments" ++ newline :: text [py "note = [default]"])).
  - split; [by apply (bool_decide_unpack _); vm_compute|].
    right. by exists (py "# accounts").
  - by apply (bool_decide_unpack _); vm_compute.
  - by vm_compute.
  - by vm_compute.
  - left. split; [by vm_compute|].
    intros c u Hu. by vm_compute in Hu.
Defined.

Example default_mid_line :
  profiles_of_content
    (text [py "# accounts"; py "[dev] ; payments"; py "note = [default]"])
  = [py "dev"; py "default"].
Proof. by vm_compute. Qed.

(** ** Steps of the monad *)

Lemma bind_val {A B} (m : M A) (f : A → M B) st a st' :
  m st = (Val a, st') → bind m f st = f a st'.
Proof. unfold bind. by intros ->. Qed.

Lemma bind_assoc {A B C} (m : M A) (f : A → M B) (g : B → M C) st :
  bind (bind m f) g st = bind m (λ a, bind (f a) g) st.
Proof. unfold bind. by destruct (m st) as [[a|e|c] st']. Qed.

Lemma bind_print {B} l (f : unit → M B) st :
  bind (print l) f st = f tt (log (Print l) st).
Proof. done. Qed.

Lemma emit_all_nil st : emit_all [] st = st.
Proof. destruct st. unfold emit_all. cbn. by rewrite app_nil_r. Qed.

Lemma emit_all_log e evs st : emit_all evs (log e st) = emit_all (e :: evs) st.
Proof. unfold emit_all, log. cbn. by rewrite <- app_assoc. Qed.

Lemma for_each_print {A} (f : A → line) (l : list A) st :
  for_each l (λ x, print (f x)) st
  = (Val tt, emit_all ((λ x, Print (f x)) <$> l) st).
Proof.
  revert st. induction l as [|x l IH]; intros st; cbn [for_each].
  - by rewrite emit_all_nil.
  - rewrite bind_print, IH. by rewrite emit_all_log.
Qed.

Lemma printed_app tr tr' : printed (tr ++ tr') = printed tr ++ printed tr'.
Proof. apply omap_app. Qed.


Lemma spawned_app tr tr' : spawned (tr ++ tr') = spawned tr ++ spawned tr'.
Proof. apply omap_app. Qed.

Lemma spawned_prints ls : spawned (Print <$> ls) = [].
Proof. induction ls; [done|]. by cbn. Qed.

(** [env = os.environ.copy(); env['AWS_PROFILE'] = profile] allocates one
    dictionary and leaves [os.environ] as it is. *)
Lemma copy_then_set {B} profile (f : dict_ref → M B) st :
  (env <- dict_copy OsEnviron ;;
   dict_set env (py "AWS_PROFILE") profile ;;
   f env) st
  = f (Obj (length (heap st)))
      (State (environ st) (heap st ++ [child_env profile st]) (config st)
         (files st) (trace st)).
Proof.
  unfold bind, dict_copy, dict_set. cbn. do 3 f_equal.
  rewrite alter_app_r_alt by done. by rewrite Nat.sub_diag.
Qed.

Lemma deref_last e hp d c fs tr :
  deref (Obj (length hp)) (State e (hp ++ [d]) c fs tr) = d.
Proof. cbn. by rewrite list_lookup_middle. Qed.

Lemma child_env_log profile e st :
  child_env profile (log e st) = child_env profile st.
Proof. done. Qed.

Lemma scan_call_log h region sd ed name profile e st :
  scan_call h region sd ed name profile (log e st)
  = scan_call h region sd ed name profile st.
Proof. done. Qed.

Lemma spawned_snoc_print tr l : spawned (tr ++ [Print l]) = spawned tr.
Proof. rewrite spawned_app. cbn. apply app_nil_r. Qed.

(** [subprocess.run] with the dictionary allocated last as [env]. *)
Lemma subprocess_run_last h c e hp d cf fs tr dir t :
  subprocess_run h c (Obj (length hp)) dir t (State e (hp ++ [d]) cf fs tr)
  = let i := Invocation c d dir t in
    let r := scanner h (length (spawned tr)) i fs in
    (match r.1 with
     | Completed rc out err => Val (rc, out, err)
     | TimedOut => Raise TimeoutExpired
     | LaunchFailed msg => Raise (Error msg)
     end,
     State e (hp ++ [d]) cf r.2 (tr ++ [Spawn i])).
Proof.
  unfold subprocess_run, runs, leave. rewrite deref_last. cbn.
  by destruct (scanner h _ _ fs) as [[?| |?] ?].
Qed.

(** Only a launch of the scanner counts as a run. *)
Lemma runs_log e st : is_spawn e = false → runs (log e st) = runs st.
Proof.
  intros He. unfold runs, log. cbn [trace].
  rewrite spawned_app, length_app. destruct e; try done; apply Nat.add_0_r.
Qed.

(** Evaluate straight-line steps and compare the traces. *)
Ltac steps :=
  unfold when, print, emit, ret, bind, log; cbn;
  rewrite <- ?app_assoc; cbn; try reflexivity.

(** What [run_deployment_scanner] does: three lines, one child process,
    the lines about its result, and always a normal return. *)
Lemma run_deployment_scanner_steps h profile region sd ed lfn st :
  let i := scan_call h region sd ed (lfn ++ py "_" ++ profile) profile st in
  let r := scanner h (length (spawned (trace st))) i (files st) in
  PerProfile.run_deployment_scanner h profile region sd ed lfn st
  = (Val tt,
     State (environ st) (heap st ++ [child_env profile st]) (config st) r.2
       (trace st
        ++ [Print BlankRule; Print (ProcessingAwsProfile profile);
            Print Rule; Spawn i]
        ++ (Print <$> report_lines profile r.1))).
Proof.
  intros i r. unfold PerProfile.run_deployment_scanner.
  rewrite !bind_print, copy_then_set.
  cbn [log environ heap config files trace]. rewrite !child_env_log.
  unfold try_except, bind at 1. rewrite subprocess_run_last.
  rewrite !spawned_snoc_print. fold (scan_call h region sd ed
    (lfn ++ py "_" ++ profile) profile st). fold i.
  cbv zeta. fold r. rewrite <- !app_assoc. cbn [app].
  destruct r as [[rc out err| |msg] fs]; cbn.
  - destruct (rc =? 0)%Z; [destruct out|]; steps.
  - steps.
  - steps.
Qed.

(** [# Read and return CSV data]: the file is looked for; when it is
    there it is read and then removed, and either step may raise. *)
Lemma collect_steps h profile csv st :
  (found <- path_exists csv ;;
   if found then
     rows <- read_csv h csv ;;
     os_remove h csv ;;
     ret rows
   else
     print (CsvNotFound profile) ;;
     ret []) st
  = match files st !! csv with
    | None => (Val [], log (Print (CsvNotFound profile)) st)
    | Some rows =>
        match read_error h (runs st) csv (files st),
              remove_error h (runs st) csv (files st) with
        | Some msg, _ => (Raise (Error msg), log (FileRead csv) st)
        | None, Some msg =>
            (Raise (Error msg), log (FileRemove csv) (log (FileRead csv) st))
        | None, None =>
            (Val rows,
             leave (delete csv (files st)) (FileRemove csv)
               (log (FileRead csv) st))
        end
    end.
Proof.
  unfold bind at 1. unfold path_exists.
  destruct (files st !! csv) as [rows|] eqn:E; cbn [bool_decide]; [|done].
  rewrite bool_decide_true by done.
  unfold bind, read_csv. rewrite E.
  destruct (read_error h (runs st) csv (files st)); [done|].
  unfold os_remove. cbn [log files]. rewrite E.
  rewrite runs_log by done.
  by destruct (remove_error h (runs st) csv (files st)).
Qed.

Lemma run_deployment_scanner_and_parse_csv_steps h profile region sd ed tmp st :
  let i := scan_call h region sd ed tmp profile st in
  let r := scanner h (length (spawned (trace st))) i (files st) in
  let csv := SingleCsv.csv_file tmp in
  let n := S (length (spawned (trace st))) in
  SingleCsv.run_deployment_scanner_and_parse_csv h profile region sd ed tmp st
  = (Val (collected_rows h n csv r),
     State (environ st) (heap st ++ [child_env profile st]) (config st)
       (files_left h n csv r)
       (trace st
        ++ [Print BlankRule; Print (ProcessingAwsProfile profile);
            Print Rule; Spawn i]
        ++ (Print <$> report_lines profile r.1)
        ++ collect_events h n profile csv r)).
Proof.
  intros i r csv n. unfold SingleCsv.run_deployment_scanner_and_parse_csv.
  rewrite !bind_print, copy_then_set.
  cbn [log environ heap config files trace]. rewrite !child_env_log.
  unfold try_except, bind at 1. rewrite subprocess_run_last.
  rewrite !spawned_snoc_print. fold (scan_call h region sd ed tmp profile st).
  fold i. cbv zeta. fold r. fold csv.
  unfold collected_rows, collect_events, files_left, collect_error.
  rewrite <- !app_assoc. cbn [app].
  destruct r as [[rc out err| |msg] fs]; cbn [fst snd report_lines].
  - destruct (rc =? 0)%Z; [|steps].
    rewrite bind_print.
    assert (runs (State (environ st) (heap st ++ [child_env profile st])
                    (config st) fs
                    (trace st
                     ++ [Print BlankRule; Print (ProcessingAwsProfile profile);
                         Print Rule; Spawn i])) = n) as Hn.
    { unfold runs, n. cbn [trace]. rewrite spawned_app, length_app.
      cbn. lia. }
    destruct out as [|c out]; unfold when, truthy.
    + unfold bind at 1, ret at 1. rewrite collect_steps.
      rewrite !(runs_log (Print _)) by done. rewrite Hn. cbn [files log].
      destruct (fs !! csv) as [rows|] eqn:E;
        destruct (read_error h n csv fs);
        try destruct (remove_error h n csv fs);
        rewrite ?(delete_id _ _ E); unfold leave; steps.
    + rewrite bind_assoc, !bind_print, collect_steps.
      rewrite !(runs_log (Print _)) by done. rewrite Hn. cbn [files log].
      destruct (fs !! csv) as [rows|] eqn:E;
        destruct (read_error h n csv fs);
        try destruct (remove_error h n csv fs);
        rewrite ?(delete_id _ _ E); unfold leave; steps.
  - steps.
  - steps.
Qed.

(** ** What a step may do to the world *)

Section After.
Variable cls : event → bool.

Lemma after_refl st : after cls st st.
Proof.
  repeat split. exists []. by rewrite app_nil_r.
Qed.

Lemma after_trans st1 st2 st3 :
  after cls st1 st2 → after cls st2 st3 → after cls st1 st3.
Proof.
  intros (He & Hc & evs & Ht & Hq & Hf) (He' & Hc' & evs' & Ht' & Hq' & Hf').
  split; [congruence|]. split; [congruence|].
  exists (evs ++ evs'). split; [|split].
  - by rewrite Ht', Ht, app_assoc.
  - by apply Forall_app.
  - intros [H1 H2]%Forall_app. rewrite Hf', Hf; done.
Qed.

Lemma after_events st evs fs hp :
  Forall (λ e, cls e = true) evs →
  (Forall (λ e, file_change e = false) evs → fs = files st) →
  after cls st (State (environ st) hp (config st) fs (trace st ++ evs)).
Proof. intros Hq Hf. repeat split. by exists evs. Qed.

Lemma keeps_ret {A} (a : A) : keeps cls (ret a).
Proof. intros st. apply after_refl. Qed.

Lemma keeps_raise {A} e : keeps cls (raise (A := A) e).
Proof. intros st. apply after_refl. Qed.

Lemma keeps_sys_exit {A} c : keeps cls (sys_exit (A := A) c).
Proof. intros st. apply after_refl. Qed.

Lemma keeps_bind {A B} (m : M A) (f : A → M B) :
  keeps cls m → (∀ a, keeps cls (f a)) → keeps cls (bind m f).
Proof.
  intros Hm Hf st. unfold bind. specialize (Hm st).
  destruct (m st) as [[a|e|c] st']; cbn in *; [|done..].
  eapply after_trans; [exact Hm | apply Hf].
Qed.

Lemma keeps_try_except {A} (m : M A) (f : exn → M A) :
  keeps cls m → (∀ e, keeps cls (f e)) → keeps cls (try_except m f).
Proof.
  intros Hm Hf st. unfold try_except. specialize (Hm st).
  destruct (m st) as [[a|e|c] st']; cbn in *; [done| |done].
  eapply after_trans; [exact Hm | apply Hf].
Qed.

Lemma keeps_when b (m : M unit) : keeps cls m → keeps cls (when b m).
Proof. destruct b; [done|]. intros _. apply keeps_ret. Qed.

Lemma keeps_for_each {A} (l : list A) (body : A → M unit) :
  (∀ x, keeps cls (body x)) → keeps cls (for_each l body).
Proof.
  intros Hb. induction l as [|x l IH]; [apply keeps_ret|].
  cbn [for_each]. apply keeps_bind; [apply Hb | by intros _].
Qed.

Lemma keeps_emit e :
  cls e = true → file_change e = false → keeps cls (emit e).
Proof.
  intros Hc Hf st. cbn. apply after_events; [by constructor | done].
Qed.

Lemma keeps_print l : cls (Print l) = true → keeps cls (print l).
Proof. intros H. by apply keeps_emit. Qed.

Lemma keeps_write_csv h path rows :
  cls (FileWrite path rows) = true → keeps cls (write_csv h path rows).
Proof.
  intros Hc st. unfold write_csv.
  destruct (write_error h (runs st) path rows (files st)) as [[msg|msg part]|];
    cbn [snd]; (apply after_events; [by constructor|]);
    intros Hf; apply Forall_cons in Hf as [Hf _]; done.
Qed.
End After.

Lemma after_mono (cls cls' : event → bool) st st' :
  (∀ e, cls e = true → cls' e = true) →
  after cls st st' → after cls' st st'.
Proof.
  intros Hsub (He & Hc & evs & Ht & Hq & Hf). repeat split; [done..|].
  exists evs. repeat split; [done| |done].
  eapply Forall_impl; [exact Hq | exact Hsub].
Qed.

Lemma keeps_mono (cls cls' : event → bool) {A} (m : M A) :
  (∀ e, cls e = true → cls' e = true) → keeps cls m → keeps cls' m.
Proof. intros Hsub Hm st. eapply after_mono; [exact Hsub | apply Hm]. Qed.

Lemma preflight_plan_print e : preflight_print e = true → plan_print e = true.
Proof.
  destruct e as [l| | | | | |]; cbn; try done.
  unfold plan_line. by intros ->.
Qed.

Lemma plan_print_plan_event e : plan_print e = true → plan_event e = true.
Proof. unfold plan_event. by intros ->. Qed.

Lemma plan_print_run_event e : plan_print e = true → run_event e = true.
Proof. by destruct e. Qed.

Create HintDb keeps.

(** Build a [keeps] fact along the structure of the step; the facts
    about the functions called are taken from the hint database. *)
Ltac keeps_tac :=
  repeat first
    [ solve [auto 1 with keeps nocore]
    | apply keeps_ret
    | apply keeps_sys_exit
    | apply keeps_print; reflexivity
    | apply keeps_write_csv; reflexivity
    | apply keeps_when
    | apply keeps_for_each; intros ?
    | apply keeps_bind; [|intros ?]
    | apply keeps_try_except; [|intros ?]
    | match goal with
      | |- keeps _ (if ?b then _ else _) => destruct b
      end ].

Lemma keeps_get_aws_profiles : keeps plan_event get_aws_profiles.
Proof.
  unfold get_aws_profiles. keeps_tac.
  - by apply keeps_emit.
  - intros st. unfold read_config.
    destruct (config st); cbn; (apply after_events; [by constructor|done]).
Qed.
#[global] Hint Resolve keeps_get_aws_profiles : keeps.

Lemma Forall_prints (cls : event → bool) ls :
  (∀ l, cls (Print l) = true) → Forall (λ e, cls e = true) (Print <$> ls).
Proof. intros H. apply Forall_fmap, Forall_forall. intros l _. apply H. Qed.

Lemma any_event_top (cls : event → bool) e : cls e = true → any_event e = true.
Proof. done. Qed.

Lemma preflight_run_event e : preflight_print e = true → run_event e = true.
Proof. intros H. by apply plan_print_run_event, preflight_plan_print. Qed.

Lemma preflight_plan_event e : preflight_print e = true → plan_event e = true.
Proof. intros H. by apply plan_print_plan_event, preflight_plan_print. Qed.

(** *** The per-profile script *)

Lemma pp_validate_dates a : keeps preflight_print (PerProfile.validate_dates a).
Proof. unfold PerProfile.validate_dates. keeps_tac. Qed.

Lemma pp_show_configuration a ps :
  keeps preflight_print (PerProfile.show_configuration a ps).
Proof. unfold PerProfile.show_configuration. keeps_tac. Qed.

Lemma pp_resolve_profiles a : keeps plan_event (PerProfile.resolve_profiles a).
Proof.
  unfold PerProfile.resolve_profiles. keeps_tac.
Qed.

Lemma pp_resolve_specified a :
  truthy_opt (PerProfile.profiles a) = true →
  keeps preflight_print (PerProfile.resolve_profiles a).
Proof. intros H. unfold PerProfile.resolve_profiles. rewrite H. keeps_tac. Qed.

Lemma pp_dry_run_report a ps : keeps plan_print (PerProfile.dry_run_report a ps).
Proof. unfold PerProfile.dry_run_report. keeps_tac. Qed.

Lemma pp_run_deployment_scanner h profile region sd ed lfn :
  keeps run_event (PerProfile.run_deployment_scanner h profile region sd ed lfn).
Proof.
  intros st. rewrite run_deployment_scanner_steps. cbn [snd].
  apply after_events.
  - apply Forall_app. split; [by repeat constructor|by apply Forall_prints].
  - intros Hf. apply Forall_app in Hf as [Hf _].
    by do 4 apply Forall_cons in Hf as [? Hf].
Qed.
#[global] Hint Resolve pp_run_deployment_scanner : keeps.

Lemma pp_process_profile h a n i profile acc :
  keeps run_event (PerProfile.process_profile h a n i profile acc).
Proof.
  unfold PerProfile.process_profile. destruct acc as [s f]. keeps_tac.
Qed.

Lemma pp_process_profiles h a n i ps acc :
  keeps run_event (PerProfile.process_profiles h a n i ps acc).
Proof.
  revert i acc. induction ps as [|p ps IH]; intros i acc; cbn.
  - apply keeps_ret.
  - apply keeps_bind; [apply pp_process_profile | intros acc'; apply IH].
Qed.

Lemma pp_summary a ps s f : keeps run_event (PerProfile.summary a ps s f).
Proof. unfold PerProfile.summary. keeps_tac. Qed.

(** *** The combined-CSV script *)

Lemma sc_validate_dates a : keeps preflight_print (SingleCsv.validate_dates a).
Proof. unfold SingleCsv.validate_dates. keeps_tac. Qed.

Lemma sc_show_configuration a ps :
  keeps preflight_print (SingleCsv.show_configuration a ps).
Proof. unfold SingleCsv.show_configuration. keeps_tac. Qed.

Lemma sc_resolve_profiles a : keeps plan_event (SingleCsv.resolve_profiles a).
Proof.
  unfold SingleCsv.resolve_profiles. keeps_tac.
Qed.

Lemma sc_resolve_specified a :
  truthy_opt (SingleCsv.profiles a) = true →
  keeps preflight_print (SingleCsv.resolve_profiles a).
Proof. intros H. unfold SingleCsv.resolve_profiles. rewrite H. keeps_tac. Qed.

Lemma sc_dry_run_report a ps : keeps plan_print (SingleCsv.dry_run_report a ps).
Proof. unfold SingleCsv.dry_run_report. keeps_tac. Qed.

Lemma collect_events_run h n profile csv r :
  Forall (λ e, run_event e = true) (collect_events h n profile csv r).
Proof.
  unfold collect_events. destruct r.1 as [rc ? ?| |]; [|done..].
  destruct (rc =? 0)%Z; [|done].
  destruct (r.2 !! csv), (read_error h n csv r.2), (remove_error h n csv r.2);
    by repeat constructor.
Qed.

Lemma sc_run_deployment_scanner h profile region sd ed tmp :
  keeps run_event
    (SingleCsv.run_deployment_scanner_and_parse_csv h profile region sd ed tmp).
Proof.
  intros st. rewrite run_deployment_scanner_and_parse_csv_steps. cbn [snd].
  apply after_events.
  - apply Forall_app. split; [by repeat constructor|].
    apply Forall_app. split; [by apply Forall_prints|].
    apply collect_events_run.
  - intros Hf. apply Forall_app in Hf as [Hf _].
    by do 4 apply Forall_cons in Hf as [? Hf].
Qed.
#[global] Hint Resolve sc_run_deployment_scanner : keeps.

Lemma sc_process_profile h a n i profile acc :
  keeps run_event (SingleCsv.process_profile h a n i profile acc).
Proof.
  unfold SingleCsv.process_profile. keeps_tac.
Qed.

Lemma sc_process_profiles h a n i ps acc :
  keeps run_event (SingleCsv.process_profiles h a n i ps acc).
Proof.
  revert i acc. induction ps as [|p ps IH]; intros i acc; cbn.
  - apply keeps_ret.
  - apply keeps_bind; [apply sc_process_profile | intros acc'; apply IH].
Qed.

Lemma sc_write_combined_csv h all_data out :
  keeps run_event (SingleCsv.write_combined_csv h all_data out).
Proof. unfold SingleCsv.write_combined_csv. keeps_tac. Qed.

Lemma sc_summary a ps acc : keeps run_event (SingleCsv.summary a ps acc).
Proof. unfold SingleCsv.summary. keeps_tac. Qed.

(** ** Steps that return *)

Lemma returns_ret {A} (a : A) : returns (ret a).
Proof. intros st. by exists a. Qed.

Lemma returns_bind {A B} (m : M A) (f : A → M B) :
  returns m → (∀ a, returns (f a)) → returns (bind m f).
Proof.
  intros Hm Hf st. unfold bind. destruct (Hm st) as [a Ha].
  destruct (m st) as [o st']. cbn in Ha. subst o. apply Hf.
Qed.

Lemma returns_when b (m : M unit) : returns m → returns (when b m).
Proof. destruct b; [done|]. intros _. apply returns_ret. Qed.

Lemma returns_for_each {A} (l : list A) (body : A → M unit) :
  (∀ x, returns (body x)) → returns (for_each l body).
Proof.
  intros Hb. induction l as [|x l IH]; [apply returns_ret|].
  cbn [for_each]. apply returns_bind; [apply Hb | by intros _].
Qed.

Lemma returns_print l : returns (print l).
Proof. intros st. by exists tt. Qed.

Ltac returns_tac :=
  repeat first
    [ apply returns_ret
    | apply returns_print
    | apply returns_when
    | apply returns_for_each; intros ?
    | apply returns_bind; [|intros ?]
    | match goal with
      | |- returns (if ?b then _ else _) => destruct b
      end ].


(** A turn of the loop of the per-profile script always ends normally,
    with the profile appended to [successful_profiles]. *)
Lemma pp_process_profile_val h a n i profile acc st :
  (PerProfile.process_profile h a n i profile acc st).1
  = Val (acc.1 ++ [profile], acc.2).
Proof.
  unfold PerProfile.process_profile. destruct acc as [s f].
  rewrite bind_print. unfold try_except, bind.
  by rewrite run_deployment_scanner_steps.
Qed.

Lemma pp_process_profiles_val h a n i ps acc st :
  (PerProfile.process_profiles h a n i ps acc st).1
  = Val (acc.1 ++ ps, acc.2).
Proof.
  revert i acc st. induction ps as [|p ps IH]; intros i acc st; cbn.
  - by rewrite app_nil_r, <- surjective_pairing.
  - unfold bind. pose proof (pp_process_profile_val h a n i p acc st) as Hp.
    destruct (PerProfile.process_profile h a n i p acc st) as [o st'].
    cbn in Hp. subst o. rewrite IH. cbn. by rewrite <- app_assoc.
Qed.

Lemma sc_show_configuration_returns a ps :
  returns (SingleCsv.show_configuration a ps).
Proof. unfold SingleCsv.show_configuration. returns_tac. Qed.

(** A turn of the loop of the combined-CSV script always ends normally;
    the profile is a success when rows came back and a failure when none
    did. *)
Lemma sc_process_profile_val h a n i profile acc st :
  (SingleCsv.process_profile h a n i profile acc st).1
  = Val (if truthy (turn_rows h a profile st)
         then SingleCsv.Tally (SingleCsv.successful_profiles acc ++ [profile])
                (SingleCsv.failed_profiles acc)
                (SingleCsv.all_csv_data acc ++ [turn_rows h a profile st])
         else SingleCsv.Tally (SingleCsv.successful_profiles acc)
                (SingleCsv.failed_profiles acc ++ [profile])
                (SingleCsv.all_csv_data acc)).
Proof.
  unfold SingleCsv.process_profile. rewrite bind_print.
  unfold try_except, bind.
  rewrite run_deployment_scanner_and_parse_csv_steps.
  cbn [log trace files]. rewrite spawned_snoc_print, !scan_call_log.
  unfold turn_rows.
  match goal with |- context [truthy ?rows] => by destruct (truthy rows) end.
Qed.

(** The loop of the combined-CSV script puts every profile in one of the
    two lists and keeps a non-empty list of rows for each success. *)
Lemma sc_loop_partition h a n i ps acc st :
  ∃ s f d,
    (SingleCsv.process_profiles h a n i ps acc st).1
    = Val (SingleCsv.Tally (SingleCsv.successful_profiles acc ++ s)
             (SingleCsv.failed_profiles acc ++ f)
             (SingleCsv.all_csv_data acc ++ d))
    ∧ s ++ f ≡ₚ ps
    ∧ s `sublist_of` ps
    ∧ f `sublist_of` ps
    ∧ length d = length s
    ∧ Forall (λ rows, rows ≠ []) d.
Proof.
  revert i acc st. induction ps as [|p ps IH]; intros i acc st.
  - exists [], [], []. cbn. rewrite !app_nil_r. by destruct acc.
  - cbn [SingleCsv.process_profiles]. unfold bind.
    pose proof (sc_process_profile_val h a n i p acc st) as Hv.
    destruct (SingleCsv.process_profile h a n i p acc st) as [o st'].
    cbn [fst] in Hv. subst o.
    destruct (truthy (turn_rows h a p st)) eqn:Et.
    + destruct (IH (S i)
                  (SingleCsv.Tally (SingleCsv.successful_profiles acc ++ [p])
                     (SingleCsv.failed_profiles acc)
                     (SingleCsv.all_csv_data acc ++ [turn_rows h a p st]))
                  st') as (s & f & d & Hr & Hp & Hs & Hf & Hl & Hd).
      exists (p :: s), f, (turn_rows h a p st :: d).
      rewrite Hr. cbn. rewrite <- !app_assoc. split; [done|].
      split; [by constructor|]. split; [by apply sublist_skip|].
      split; [by apply sublist_cons|]. split; [by rewrite Hl|].
      constructor; [by apply truthy_true|done].
    + destruct (IH (S i)
                  (SingleCsv.Tally (SingleCsv.successful_profiles acc)
                     (SingleCsv.failed_profiles acc ++ [p])
                     (SingleCsv.all_csv_data acc))
                  st') as (s & f & d & Hr & Hp & Hs & Hf & Hl & Hd).
      exists s, (p :: f), d.
      rewrite Hr. cbn. rewrite <- !app_assoc. split; [done|].
      split; [by rewrite <- Permutation_middle; constructor|].
      split; [by apply sublist_cons|]. split; [by apply sublist_skip|].
      done.
Qed.

(** ** Writing the combined file, and the summary *)

Lemma first_header_concat all_data :
  SingleCsv.first_header all_data = head (concat (take 1 <$> all_data)).
Proof.
  induction all_data as [|d all_data IH]; [done|].
  cbn [SingleCsv.first_header fmap list_fmap concat]. rewrite IH.
  by destruct d.
Qed.

(** The data rows are the rows of every list behind its first row. *)
Lemma data_rows_concat all_data :
  SingleCsv.data_rows all_data = concat (drop 1 <$> all_data).
Proof.
  induction all_data as [|d all_data IH]; [done|].
  cbn [SingleCsv.data_rows fmap list_fmap concat]. rewrite IH. f_equal.
  destruct d as [|r [|r' d]]; done.
Qed.

(** [write_combined_csv] step by step: a warning when there is nothing
    to write, else one write, which may raise, and the closing line. *)
Lemma write_combined_csv_steps h all_data out st :
  SingleCsv.write_combined_csv h all_data out st
  = match rows_to_write all_data with
    | None =>
        (Val tt,
         log (Print (match all_data with
                     | [] => NoDataToWrite
                     | _ => NoValidHeaders
                     end)) st)
    | Some rows =>
        match write_error h (runs st) out rows (files st) with
        | None =>
            (Val tt,
             log (Print (CombinedWritten out))
               (leave (<[out := rows]> (files st)) (FileWrite out rows) st))
        | Some fault =>
            (Raise (Error (fault_message fault)),
             leave (after_fault fault out (files st)) (FileWrite out rows) st)
        end
    end.
Proof.
  unfold SingleCsv.write_combined_csv, rows_to_write.
  rewrite first_header_concat, data_rows_concat.
  destruct all_data as [|d all_data]; [done|]. cbn [truthy negb].
  unfold row in *.
  destruct (concat (take 1 <$> d :: all_data)) as [|[|fd hdr] firsts];
    [done..|].
  cbn [head truthy_opt truthy negb default from_option id].
  unfold bind, write_csv.
  by destruct (write_error h (runs st) out _ (files st)) as [[msg|msg part]|].
Qed.

Lemma listing_prints {B} label entry ps (f : unit → M B) st :
  bind (when (truthy ps)
          (print label ;;
           for_each ps (λ profile, print (entry profile)))) f st
  = f tt (emit_all (Print <$> listing label entry ps) st).
Proof.
  destruct ps as [|p ps].
  - cbn. unfold bind, ret. by rewrite emit_all_nil.
  - cbn [when truthy]. rewrite bind_assoc, bind_print.
    rewrite (bind_val _ _ _ _ _ (for_each_print _ _ _)).
    rewrite emit_all_log. cbn [listing]. do 2 f_equal.
    change (Print <$> label :: (entry <$> p :: ps))
      with (Print label :: (Print <$> (entry <$> p :: ps))).
    f_equal. apply (list_fmap_compose entry Print).
Qed.

Lemma emit_all_app evs evs' st :
  emit_all evs' (emit_all evs st) = emit_all (evs ++ evs') st.
Proof. unfold emit_all. cbn. by rewrite app_assoc. Qed.

Lemma log_emit_all e st : log e st = emit_all [e] st.
Proof. done. Qed.

(** [# Summary] prints the summary of the lists it is given. *)
Lemma pp_summary_trace a ps s f st :
  PerProfile.summary a ps s f st
  = (Val tt, emit_all (Print <$> pp_summary_lines a ps s f) st).
Proof.
  unfold PerProfile.summary, pp_summary_lines, summary_lines.
  rewrite !bind_print, !listing_prints. unfold print, emit. f_equal.
  rewrite !fmap_app, !log_emit_all, !emit_all_app. f_equal.
Qed.

Lemma sc_summary_trace a ps acc st :
  SingleCsv.summary a ps acc st
  = (Val tt, emit_all (Print <$> sc_summary_lines a ps acc) st).
Proof.
  unfold SingleCsv.summary, sc_summary_lines, summary_lines.
  rewrite !bind_print, !listing_prints. unfold print, emit. f_equal.
  rewrite !fmap_app, !log_emit_all, !emit_all_app. f_equal.
Qed.

(** ** The drivers as a whole *)

Ltac keeps_from L :=
  eapply keeps_mono; [|apply L];
  first [ exact preflight_plan_event | exact preflight_run_event
        | exact plan_print_plan_event | exact plan_print_run_event
        | exact (any_event_top _) ].

Lemma pp_main_split h a st :
  PerProfile.main h a st = bind (pp_preflight a) (pp_rest h a) st.
Proof. unfold pp_preflight. by rewrite bind_assoc. Qed.

Lemma sc_main_split h a st :
  SingleCsv.main h a st = bind (sc_preflight a) (sc_rest h a) st.
Proof. unfold sc_preflight. by rewrite bind_assoc. Qed.

Lemma pp_preflight_keeps a : keeps plan_event (pp_preflight a).
Proof.
  apply keeps_bind; [keeps_from pp_validate_dates|intros _].
  apply pp_resolve_profiles.
Qed.

Lemma sc_preflight_keeps a : keeps plan_event (sc_preflight a).
Proof.
  apply keeps_bind; [keeps_from sc_validate_dates|intros _].
  apply sc_resolve_profiles.
Qed.

Lemma pp_preflight_specified a :
  truthy_opt (PerProfile.profiles a) = true →
  keeps preflight_print (pp_preflight a).
Proof.
  intros H. apply keeps_bind; [apply pp_validate_dates|intros _].
  by apply pp_resolve_specified.
Qed.

Lemma sc_preflight_specified a :
  truthy_opt (SingleCsv.profiles a) = true →
  keeps preflight_print (sc_preflight a).
Proof.
  intros H. apply keeps_bind; [apply sc_validate_dates|intros _].
  by apply sc_resolve_specified.
Qed.

(** After the profiles are known nothing looks at the configuration
    file. *)
Lemma pp_rest_keeps h a ps : keeps run_event (pp_rest h a ps).
Proof.
  apply keeps_bind; [keeps_from pp_show_configuration|intros _].
  destruct (PerProfile.dry_run a); [keeps_from pp_dry_run_report|].
  apply keeps_bind; [by apply keeps_print|intros _].
  apply keeps_bind; [apply pp_process_profiles|intros [s f]].
  apply pp_summary.
Qed.

Lemma sc_rest_keeps h a ps : keeps run_event (sc_rest h a ps).
Proof.
  apply keeps_bind; [keeps_from sc_show_configuration|intros _].
  destruct (SingleCsv.dry_run a); [keeps_from sc_dry_run_report|].
  apply keeps_bind; [by apply keeps_print|intros _].
  apply keeps_bind; [apply sc_process_profiles|intros acc].
  apply keeps_bind; [apply keeps_when, sc_write_combined_csv|intros _].
  apply sc_summary.
Qed.



Lemma keeps_split (cls : event → bool) {A B} (m : M B) (p : M A)
    (r : A → M B) :
  (∀ st, m st = bind p r st) →
  keeps cls p → (∀ a, keeps cls (r a)) → keeps cls m.
Proof.
  intros Heq Hp Hr st. rewrite Heq. by apply keeps_bind.
Qed.

Lemma pp_main_any h a : keeps any_event (PerProfile.main h a).
Proof.
  eapply keeps_split; [apply pp_main_split| |intros ps].
  - keeps_from pp_preflight_keeps.
  - keeps_from pp_rest_keeps.
Qed.

Lemma sc_main_any h a : keeps any_event (SingleCsv.main h a).
Proof.
  eapply keeps_split; [apply sc_main_split| |intros ps].
  - keeps_from sc_preflight_keeps.
  - keeps_from sc_rest_keeps.
Qed.



Lemma pp_main_specified h a :
  truthy_opt (PerProfile.profiles a) = true →
  keeps run_event (PerProfile.main h a).
Proof.
  intros H. eapply keeps_split; [apply pp_main_split| |intros ps].
  - eapply keeps_mono; [exact preflight_run_event|].
    by apply pp_preflight_specified.
  - apply pp_rest_keeps.
Qed.

Lemma sc_main_specified h a :
  truthy_opt (SingleCsv.profiles a) = true →
  keeps run_event (SingleCsv.main h a).
Proof.
  intros H. eapply keeps_split; [apply sc_main_split| |intros ps].
  - eapply keeps_mono; [exact preflight_run_event|].
    by apply sc_preflight_specified.
  - apply sc_rest_keeps.
Qed.

(** A step that returns gives a pair of the value and the state. *)
Lemma returns_pair (m : M unit) st : returns m → m st = (Val tt, (m st).2).
Proof.
  intros Hm. destruct (Hm st) as [[] Hv]. rewrite <- Hv.
  apply surjective_pairing.
Qed.


(** A run of the combined-CSV script that is not a dry run, from the end
    of the loop on: when there are rows to write they are written, and
    [main] returns after the summary unless the write raises. *)
Lemma sc_main_loop h a st ps st1 acc st3 :
  SingleCsv.dry_run a = false →
  sc_preflight a st = (Val ps, st1) →
  SingleCsv.process_profiles h a (length ps) 1 ps (SingleCsv.Tally [] [] [])
    (sc_loop_start a ps st1)
  = (Val acc, st3) →
  let out := SingleCsv.output_file a in
  let summary := sc_summary_lines a ps acc in
  SingleCsv.main h a st
  = match rows_to_write (SingleCsv.all_csv_data acc) with
    | None =>
        (Val tt,
         emit_all
           (Print <$> match SingleCsv.all_csv_data acc with
                      | [] => summary
                      | _ => NoValidHeaders :: summary
                      end) st3)
    | Some rows =>
        match write_error h (runs st3) out rows (files st3) with
        | None =>
            (Val tt,
             emit_all (Print <$> CombinedWritten out :: summary)
               (leave (<[out := rows]> (files st3)) (FileWrite out rows) st3))
        | Some fault =>
            (Raise (Error (fault_message fault)),
             leave (after_fault fault out (files st3)) (FileWrite out rows)
               st3)
        end
    end.
Proof.
  intros Hdry Hpre Hloop out summary.
  rewrite sc_main_split, (bind_val _ _ _ _ _ Hpre). unfold sc_rest.
  rewrite Hdry.
  rewrite (bind_val _ _ _ _ _
             (returns_pair _ st1 (sc_show_configuration_returns a ps))).
  rewrite bind_print. fold (sc_loop_start a ps st1).
  rewrite (bind_val _ _ _ _ _ Hloop). fold out.
  destruct (SingleCsv.all_csv_data acc) as [|d data] eqn:Ed.
  { cbn [when truthy rows_to_write fmap list_fmap concat].
    unfold bind at 1, ret at 1. apply sc_summary_trace. }
  cbn [when truthy]. unfold bind at 1. rewrite write_combined_csv_steps.
  destruct (rows_to_write (d :: data)) as [rows|].
  - destruct (write_error h (runs st3) out rows (files st3)); [done|].
    rewrite sc_summary_trace. by rewrite emit_all_log.
  - rewrite sc_summary_trace. by rewrite emit_all_log.
Qed.

(** C5: with exactly one of the two dates, [main] of either script prints
    one error line and ends in [sys.exit(1)]; nothing else happens, so no
    child process is launched and the configuration file is not looked at.
    With both dates or none, the validation lets the run go on
    unchanged. *)
Theorem dates_checked_first h st (pa : PerProfile.args) (sa : SingleCsv.args) :
  (one_date_only (PerProfile.start_date pa) (PerProfile.end_date pa) →
   ∃ l, PerProfile.main h pa st = (SysExit 1, log (Print l) st)
        ∧ exit_status (PerProfile.main h pa st).1 = 1%Z)
  ∧ (¬ one_date_only (PerProfile.start_date pa) (PerProfile.end_date pa) →
     PerProfile.validate_dates pa st = (Val tt, st))
  ∧ (one_date_only (SingleCsv.start_date sa) (SingleCsv.end_date sa) →
     ∃ l, SingleCsv.main h sa st = (SysExit 1, log (Print l) st)
          ∧ exit_status (SingleCsv.main h sa st).1 = 1%Z)
  ∧ (¬ one_date_only (SingleCsv.start_date sa) (SingleCsv.end_date sa) →
     SingleCsv.validate_dates sa st = (Val tt, st)).
Proof.
  unfold one_date_only, PerProfile.main, SingleCsv.main,
    PerProfile.validate_dates, SingleCsv.validate_dates.
  destruct (PerProfile.start_date pa), (PerProfile.end_date pa),
    (SingleCsv.start_date sa), (SingleCsv.end_date sa);
    cbn; repeat split; intros H;
    first [ by eexists
          | done
          | by destruct H as [[? ?]|[? ?]]
          | exfalso; apply H; by left
          | exfalso; apply H; by right ].
Qed.

Lemma dates_checked_first_witness :
  (∃ l,
     PerProfile.main sample_host
       (PerProfile.Args (py "us-east-1") (Some (py "20240101")) None
          (py "scan") None false)
       empty_state
     = (SysExit 1, log (Print l) empty_state)
     ∧ exit_status
         (PerProfile.main sample_host
            (PerProfile.Args (py "us-east-1") (Some (py "20240101")) None
               (py "scan") None false)
            empty_state).1
       = 1%Z)
  ∧ SingleCsv.validate_dates
      (SingleCsv.Args (py "us-east-1") (Some (py "20240101"))
         (Some (py "20240131")) (py "all.csv") None false)
      empty_state
    = (Val tt, empty_state).
Proof.
  pose proof (dates_checked_first sample_host empty_state
                (PerProfile.Args (py "us-east-1") (Some (py "20240101")) None
                   (py "scan") None false)
                (SingleCsv.Args (py "us-east-1") (Some (py "20240101"))
                   (Some (py "20240131")) (py "all.csv") None false))
    as (H1 & _ & _ & H4).
  split.
  - apply H1. left. by split.
  - apply H4. unfold one_date_only. cbn. intros [[? ?]|[? ?]]; done.
Defined.

Lemma run_event_not_config evs :
  Forall (λ e, run_event e = true) evs →
  Forall (λ e, e ≠ ConfigStat ∧ e ≠ ConfigRead) evs.
Proof.
  intros H. eapply Forall_impl; [exact H|].
  intros e He. by split; intros ->.
Qed.

(** C8: with a non-empty [--profiles] argument, either script resolves the
    profiles to the stripped pieces of the argument between its commas, in
    the order given, and nowhere in the run is the configuration file
    looked at, whatever it holds and whether it exists or not. *)
Theorem profiles_argument_wins h st p (pa : PerProfile.args)
    (sa : SingleCsv.args) :
  p ≠ [] →
  PerProfile.profiles pa = Some p →
  SingleCsv.profiles sa = Some p →
  let ps := strip <$> split comma p in
  (∀ st0,
     PerProfile.resolve_profiles pa st0
     = (Val ps, log (Print (UsingSpecified ps)) st0))
  ∧ (∃ evs,
       trace (PerProfile.main h pa st).2 = trace st ++ evs
       ∧ Forall (λ e, e ≠ ConfigStat ∧ e ≠ ConfigRead) evs)
  ∧ (∀ st0,
       SingleCsv.resolve_profiles sa st0
       = (Val ps, log (Print (UsingSpecified ps)) st0))
  ∧ (∃ evs,
       trace (SingleCsv.main h sa st).2 = trace st ++ evs
       ∧ Forall (λ e, e ≠ ConfigStat ∧ e ≠ ConfigRead) evs).
Proof.
  intros Hp Hpa Hsa ps.
  assert (truthy ps = true) as Hps.
  { unfold ps. pose proof (split_not_nil comma p) as Hs.
    by destruct (split comma p). }
  assert (truthy p = true) as Htp by by destruct p.
  split; [|split; [|split]].
  - intros st0. unfold PerProfile.resolve_profiles. rewrite Hpa. cbn.
    rewrite Htp. fold ps. unfold bind. cbn. by rewrite Hps.
  - destruct (pp_main_specified h pa) with (st := st)
      as (_ & _ & evs & Ht & Hq & _).
    { rewrite Hpa. exact Htp. }
    exists evs. split; [done|]. by apply run_event_not_config.
  - intros st0. unfold SingleCsv.resolve_profiles. rewrite Hsa. cbn.
    rewrite Htp. fold ps. unfold bind. cbn. by rewrite Hps.
  - destruct (sc_main_specified h sa) with (st := st)
      as (_ & _ & evs & Ht & Hq & _).
    { rewrite Hsa. exact Htp. }
    exists evs. split; [done|]. by apply run_event_not_config.
Qed.

Lemma profiles_argument_wins_witness :
  let ps := [py "prod"; py "dev"; py "test"] in
  let pa := PerProfile.Args (py "us-east-1") None None (py "scan")
              (Some (py "prod, dev ,test")) false in
  let sa := SingleCsv.Args (py "us-east-1") None None (py "all.csv")
              (Some (py "prod, dev ,test")) false in
  let st := State ∅ [] (Config (py "[other]")) ∅ [] in
  (∀ st0,
     PerProfile.resolve_profiles pa st0
     = (Val ps, log (Print (UsingSpecified ps)) st0))
  ∧ (∃ evs,
       trace (PerProfile.main sample_host pa st).2 = trace st ++ evs
       ∧ Forall (λ e, e ≠ ConfigStat ∧ e ≠ ConfigRead) evs)
  ∧ (∀ st0,
       SingleCsv.resolve_profiles sa st0
       = (Val ps, log (Print (UsingSpecified ps)) st0))
  ∧ (∃ evs,
       trace (SingleCsv.main sample_host sa st).2 = trace st ++ evs
       ∧ Forall (λ e, e ≠ ConfigStat ∧ e ≠ ConfigRead) evs).
Proof.
  intros ps pa sa st.
  change ps with (strip <$> split comma (py "prod, dev ,test")).
  by apply (profiles_argument_wins sample_host st (py "prod, dev ,test") pa sa).
Defined.




(** With the failing scanner every profile is counted as failed by the
    combined-CSV script, and the run still returns. *)
Example all_failed_exit_zero :
  let sa := SingleCsv.Args (py "us-east-1") None None (py "all.csv")
              (Some (py "prod,dev")) false in
  let r := SingleCsv.main failing_host sa empty_state in
  exit_status r.1 = 0%Z
  ∧ Print (Successful 0) ∈ trace r.2
  ∧ Print (Failed 2) ∈ trace r.2.
Proof.
  vm_compute. split; [done|]. split; apply list_elem_of_In; cbn; tauto.
Qed.






Lemma spawned_collect_events h n profile csv r :
  spawned (collect_events h n profile csv r) = [].
Proof.
  unfold collect_events. destruct r.1 as [rc ? ?| |]; [|done..].
  destruct (rc =? 0)%Z; [|done].
  by destruct (r.2 !! csv), (read_error h n csv r.2),
    (remove_error h n csv r.2).
Qed.

(** C9: each launch of the scanner, by either script, passes to the child
    a dictionary that holds [os.environ] as it is at that time with
    [AWS_PROFILE] set to the profile, and leaves [os.environ] itself
    unchanged; so does each run of [main] as a whole. *)
Theorem child_environment_only h profile region sd ed name st
    (pa : PerProfile.args) (sa : SingleCsv.args) :
  let st_p :=
    (PerProfile.run_deployment_scanner h profile region sd ed name st).2 in
  let st_s :=
    (SingleCsv.run_deployment_scanner_and_parse_csv h profile region sd ed
       name st).2 in
  (environ st_p = environ st
   ∧ ∃ i, spawned (trace st_p) = spawned (trace st) ++ [i]
          ∧ env i = <[py "AWS_PROFILE" := profile]> (environ st)
          ∧ env i !! py "AWS_PROFILE" = Some profile
          ∧ ∀ k, k ≠ py "AWS_PROFILE" → env i !! k = environ st !! k)
  ∧ (environ st_s = environ st
     ∧ ∃ i, spawned (trace st_s) = spawned (trace st) ++ [i]
            ∧ env i = <[py "AWS_PROFILE" := profile]> (environ st)
            ∧ env i !! py "AWS_PROFILE" = Some profile
            ∧ ∀ k, k ≠ py "AWS_PROFILE" → env i !! k = environ st !! k)
  ∧ environ (PerProfile.main h pa st).2 = environ st
  ∧ environ (SingleCsv.main h sa st).2 = environ st.
Proof.
  intros st_p st_s. subst st_p st_s.
  rewrite run_deployment_scanner_steps,
    run_deployment_scanner_and_parse_csv_steps. cbn [snd environ trace].
  split; [|split; [|split]].
  - split; [done|]. eexists. split; [|split; [|split]].
    + rewrite !spawned_app, spawned_prints, app_nil_r. reflexivity.
    + done.
    + apply lookup_insert_eq.
    + intros k Hk. by apply lookup_insert_ne.
  - split; [done|]. eexists. split; [|split; [|split]].
    + rewrite !spawned_app, spawned_prints, spawned_collect_events,
        !app_nil_r. reflexivity.
    + done.
    + apply lookup_insert_eq.
    + intros k Hk. by apply lookup_insert_ne.
  - by destruct (pp_main_any h pa st) as (He & _).
  - by destruct (sc_main_any h sa st) as (He & _).
Qed.

Lemma child_environment_only_witness :
  let st := State {[py "PATH" := py "/usr/bin"; py "AWS_PROFILE" := py "me"]}
              [] NoConfig ∅ [] in
  let st_p :=
    (PerProfile.run_deployment_scanner sample_host (py "prod")
       (py "us-east-1") None None (py "scan") st).2 in
  environ st_p = environ st
  ∧ ∃ i, spawned (trace st_p) = spawned (trace st) ++ [i]
         ∧ env i = <[py "AWS_PROFILE" := py "prod"]> (environ st)
         ∧ env i !! py "AWS_PROFILE" = Some (py "prod")
         ∧ env i !! py "PATH" = environ st !! py "PATH".
Proof.
  intros st st_p.
  destruct (child_environment_only sample_host (py "prod") (py "us-east-1")
              None None (py "scan") st
              (PerProfile.Args (py "us-east-1") None None (py "scan") None
                 false)
              (SingleCsv.Args (py "us-east-1") None None (py "all.csv") None
                 false))
    as ((He & i & Hs & Hi & Hp & Hk) & _).
  split; [exact He|]. exists i. repeat split; try done.
  apply Hk. by vm_compute.
Defined.

(** ** The combined CSV file *)

Lemma first_header_skips empties all_data :
  Forall (λ d, d = []) empties →
  SingleCsv.first_header (empties ++ all_data)
  = SingleCsv.first_header all_data.
Proof.
  induction 1 as [|d empties -> _ IH]; [done|]. exact IH.
Qed.

Lemma first_header_none all_data :
  Forall (λ d, d = []) all_data → SingleCsv.first_header all_data = None.
Proof.
  intros H. rewrite <- (app_nil_r all_data). by rewrite first_header_skips.
Qed.

(** C4, as the code has it: when the first list with at least one row
    starts with a row that has at least one field, [write_combined_csv]
    writes that row once as the header, followed by the rows behind the
    first row of every list, in order (lists with no row or one row give
    none); so [header, r1, r2] and [header, r3] give header, r1, r2, r3.
    These are the rows handed to the writer also when opening or writing
    the file raises; the exception then leaves the function.  When no
    list has a row, or that first row has no field, nothing is
    written. *)
Theorem write_combined_csv_rows h all_data out st :
  (∀ empties hdr tail rest,
     all_data = empties ++ (hdr :: tail) :: rest →
     Forall (λ d, d = []) empties →
     hdr ≠ [] →
     let rows := hdr :: concat (drop 1 <$> all_data) in
     match write_error h (runs st) out rows (files st) with
     | None =>
         SingleCsv.write_combined_csv h all_data out st
         = (Val tt,
            State (environ st) (heap st) (config st)
              (<[out := rows]> (files st))
              (trace st ++ [FileWrite out rows; Print (CombinedWritten out)]))
     | Some fault =>
         SingleCsv.write_combined_csv h all_data out st
         = (Raise (Error (fault_message fault)),
            State (environ st) (heap st) (config st)
              (after_fault fault out (files st))
              (trace st ++ [FileWrite out rows]))
     end)
  ∧ (Forall (λ d, d = []) all_data
     ∨ (∃ empties tail rest,
          all_data = empties ++ ([] :: tail) :: rest
          ∧ Forall (λ d, d = []) empties) →
     ∃ l, SingleCsv.write_combined_csv h all_data out st
          = (Val tt, log (Print l) st))
  ∧ (∀ header r1 r2 r3 : row,
       header ≠ [] →
       write_error h (runs st) out [header; r1; r2; r3] (files st) = None →
       files (SingleCsv.write_combined_csv h
                [[header; r1; r2]; [header; r3]] out st).2 !! out
       = Some [header; r1; r2; r3]).
Proof.
  split; [|split].
  - intros empties hdr tail rest -> Hemp Hhdr rows.
    rewrite write_combined_csv_steps.
    assert (rows_to_write (empties ++ (hdr :: tail) :: rest) = Some rows)
      as ->.
    { subst rows. clear -Hemp Hhdr.
      induction Hemp as [|d empties -> _ IH]; [|exact IH].
      by destruct hdr. }
    destruct (write_error h (runs st) out rows (files st)); [done|].
    unfold leave, log. cbn. by rewrite <- app_assoc.
  - unfold SingleCsv.write_combined_csv.
    intros [Hall | (empties & tail & rest & -> & Hemp)].
    + rewrite (first_header_none _ Hall).
      destruct (negb _); cbn; eexists; reflexivity.
    + rewrite first_header_skips by done. cbn.
      destruct (negb _); cbn; eexists; reflexivity.
  - intros header r1 r2 r3 Hh Hw. rewrite write_combined_csv_steps.
    destruct header as [|f header]; [done|].
    change (rows_to_write [[f :: header; r1; r2]; [f :: header; r3]])
      with (Some [f :: header; r1; r2; r3]).
    cbv iota. unfold row in *. rewrite Hw. cbn [snd log leave files].
    apply lookup_insert_eq.
Qed.

Lemma write_combined_csv_rows_witness :
  let header := [py "cluster"; py "cost"] in
  let r1 := [py "c1"; py "10"] in
  let r2 := [py "c2"; py "20"] in
  let r3 := [py "c3"; py "30"] in
  SingleCsv.write_combined_csv sample_host
    [[header; r1; r2]; []; [header]; [header; r3]] (py "all.csv") empty_state
  = (Val tt,
     State ∅ [] NoConfig {[py "all.csv" := [header; r1; r2; r3]]}
       [FileWrite (py "all.csv") [header; r1; r2; r3];
        Print (CombinedWritten (py "all.csv"))]).
Proof.
  intros header r1 r2 r3.
  destruct (write_combined_csv_rows sample_host
              [[header; r1; r2]; []; [header]; [header; r3]]
              (py "all.csv") empty_state) as (H & _).
  by apply (H [] header [r1; r2] [[]; [header]; [header; r3]]).
Defined.

(** C4, as stated, fails: when the first list that has a row starts with
    a row without fields (a blank first line of the CSV file), nothing is
    written, although the list has a second row. *)
Lemma empty_header_writes_nothing :
  let all_data : list (list row) := [[[]; [py "c1"; py "10"]]] in
  let r := SingleCsv.write_combined_csv sample_host all_data (py "all.csv")
             empty_state in
  SingleCsv.first_header all_data = Some []
  ∧ files r.2 !! py "all.csv" = None
  ∧ trace r.2 = [Print NoValidHeaders].
Proof. by vm_compute. Qed.

(** ** How a profile is counted *)

(** The loop of the per-profile script never adds to [failed_profiles]:
    [run_deployment_scanner] handles every failure itself and returns. *)
Lemma pp_failed_profiles_untouched h a n i ps s f st :
  (PerProfile.process_profiles h a n i ps (s, f) st).1 = Val (s ++ ps, f).
Proof. apply pp_process_profiles_val. Qed.

(** The loop of the combined-CSV script counts a profile whose scanner
    timed out as failed. *)
Lemma sc_timeout_recorded h a n i profile acc st fs' :
  scanner h (length (spawned (trace st)))
    (scan_call h (SingleCsv.region a) (SingleCsv.start_date a)
       (SingleCsv.end_date a) (SingleCsv.temp_log_file profile) profile st)
    (files st)
  = (TimedOut, fs') →
  (SingleCsv.process_profile h a n i profile acc st).1
  = Val (SingleCsv.Tally (SingleCsv.successful_profiles acc)
           (SingleCsv.failed_profiles acc ++ [profile])
           (SingleCsv.all_csv_data acc)).
Proof.
  intros H. rewrite sc_process_profile_val. unfold turn_rows. by rewrite H.
Qed.

Lemma sc_process_profile_state h a n i profile acc st :
  (SingleCsv.process_profile h a n i profile acc st).2
  = (SingleCsv.run_deployment_scanner_and_parse_csv h profile
       (SingleCsv.region a) (SingleCsv.start_date a) (SingleCsv.end_date a)
       (SingleCsv.temp_log_file profile)
       (log (Print (Progress i n profile)) st)).2.
Proof.
  unfold SingleCsv.process_profile. rewrite bind_print.
  unfold try_except, bind.
  rewrite run_deployment_scanner_and_parse_csv_steps.
  match goal with |- context [truthy ?rows] => by destruct (truthy rows) end.
Qed.

Lemma launched_app tr tr' : launched (tr ++ tr') = launched tr ++ launched tr'.
Proof. unfold launched. by rewrite spawned_app, fmap_app. Qed.

Lemma pp_process_profile_state h a n i profile acc st :
  (PerProfile.process_profile h a n i profile acc st).2
  = (PerProfile.run_deployment_scanner h profile (PerProfile.region a)
       (PerProfile.start_date a) (PerProfile.end_date a)
       (PerProfile.log_file_name a)
       (log (Print (Progress i n profile)) st)).2.
Proof.
  unfold PerProfile.process_profile. destruct acc as [s f].
  rewrite bind_print. unfold try_except, bind.
  by rewrite run_deployment_scanner_steps.
Qed.

(** Whatever the scanner does, the loop of either script launches it once
    for each profile, in the order of the list: no failure ends the loop
    early. *)
Lemma pp_launches_every_profile h a n i ps acc st :
  launched (trace (PerProfile.process_profiles h a n i ps acc st).2)
  = launched (trace st) ++ (Some <$> ps).
Proof.
  revert i acc st. induction ps as [|p ps IH]; intros i acc st; cbn.
  - by rewrite app_nil_r.
  - unfold bind.
    pose proof (pp_process_profile_val h a n i p acc st) as Hv.
    pose proof (pp_process_profile_state h a n i p acc st) as Hs.
    destruct (PerProfile.process_profile h a n i p acc st) as [o st'].
    cbn [fst snd] in Hv, Hs. subst o st'. rewrite IH.
    rewrite run_deployment_scanner_steps. cbn [trace log snd].
    rewrite !launched_app, <- !app_assoc. f_equal.
    unfold launched. rewrite spawned_prints. cbn.
    unfold child_env. by rewrite lookup_insert_eq.
Qed.

Lemma sc_launches_every_profile h a n i ps acc st :
  launched (trace (SingleCsv.process_profiles h a n i ps acc st).2)
  = launched (trace st) ++ (Some <$> ps).
Proof.
  revert i acc st. induction ps as [|p ps IH]; intros i acc st; cbn.
  - by rewrite app_nil_r.
  - unfold bind.
    pose proof (sc_process_profile_val h a n i p acc st) as Hv.
    pose proof (sc_process_profile_state h a n i p acc st) as Hs.
    destruct (SingleCsv.process_profile h a n i p acc st) as [o st'].
    cbn [fst snd] in Hv, Hs. subst o st'. rewrite IH.
    rewrite run_deployment_scanner_and_parse_csv_steps. cbn [trace log snd].
    rewrite !launched_app, <- !app_assoc. f_equal.
    unfold launched.
    rewrite spawned_prints, spawned_collect_events. cbn.
    unfold child_env. by rewrite lookup_insert_eq.
Qed.

(** C2 at a failing input: the per-profile script, run for the profiles
    prod and dev with a scanner that times out for both, launches the
    scanner for each, reports each timeout, and then lists both profiles
    as successful and none as failed.  The combined-CSV script counts both
    as failed on the same input. *)
Theorem timeout_counted_as_success :
  let pa := PerProfile.Args (py "us-east-1") None None (py "scan")
              (Some (py "prod,dev")) false in
  let sa := SingleCsv.Args (py "us-east-1") None None (py "all.csv")
              (Some (py "prod,dev")) false in
  let r := PerProfile.main timeout_host pa empty_state in
  (PerProfile.process_profiles timeout_host pa 2 1 [py "prod"; py "dev"]
     ([], []) empty_state).1
  = Val ([py "prod"; py "dev"], [])
  ∧ length (spawned (trace r.2)) = 2%nat
  ∧ printed (trace r.2)
    = [UsingSpecified [py "prod"; py "dev"];
       ConfigurationLabel; RegionLine (py "us-east-1");
       BaseLogLine (py "scan"); DateRangeDefault;
       ProfilesToProcess [py "prod"; py "dev"];
       Starting 2;
       Progress 1 2 (py "prod");
       BlankRule; ProcessingAwsProfile (py "prod"); Rule;
       Timeout (py "prod");
       Progress 2 2 (py "dev");
       BlankRule; ProcessingAwsProfile (py "dev"); Rule;
       Timeout (py "dev");
       BlankRule; ScanCompleted; Rule;
       Total 2; Successful 2; Failed 0;
       SuccessfulLabel;
       SuccessfulTarget (py "prod") (py "scan_prod.csv");
       SuccessfulTarget (py "dev") (py "scan_dev.csv");
       AllGenerated]
  ∧ (SingleCsv.process_profiles timeout_host sa 2 1 [py "prod"; py "dev"]
       (SingleCsv.Tally [] [] []) empty_state).1
    = Val (SingleCsv.Tally [] [py "prod"; py "dev"] []).
Proof. cbv zeta. repeat split; by vm_compute. Qed.

(** A profile of one of the two lists has its line in the summary. *)
Lemma summary_lists ps s f entry closing p :
  (p ∈ s → entry p ∈ summary_lines ps s f entry closing)
  ∧ (p ∈ f → FailedProfile p ∈ summary_lines ps s f entry closing).
Proof.
  unfold summary_lines. split; intros Hp.
  - apply elem_of_app. right. apply elem_of_app. left.
    destruct s as [|q s]; [by apply elem_of_nil in Hp|].
    cbn [listing]. apply elem_of_cons. right. by apply list_elem_of_fmap_2.
  - apply elem_of_app. right. apply elem_of_app. right.
    apply elem_of_app. left.
    destruct f as [|q f]; [by apply elem_of_nil in Hp|].
    cbn [listing]. apply elem_of_cons. right. by apply list_elem_of_fmap_2.
Qed.

(** C3, as the code has it: the per-profile script counts every profile,
    so also one whose scanner exits with code 0, as a success.  The
    combined-CSV script counts a profile whose scanner exits with code 0
    as a success exactly when the CSV file of the profile is there
    afterwards, is read and removed without error, and has at least one
    row; it counts the profile as a failure when the file is missing,
    when reading or removing it raises, or when it has no row.  When the
    file is there it is read; when that works it is removed; when that
    works too its rows are the result and the file is gone, else the
    exception is reported and the file stays.  Whatever list the profile
    is put in, it stays there until the loop ends, and the summary of
    that tally has its line among the successful or the failed
    profiles. *)
Theorem exit_zero_classification h (pa : PerProfile.args)
    (sa : SingleCsv.args) n i profile rest acc_p acc st out err fs' :
  scanner h (length (spawned (trace st)))
    (scan_call h (SingleCsv.region sa) (SingleCsv.start_date sa)
       (SingleCsv.end_date sa) (SingleCsv.temp_log_file profile) profile st)
    (files st)
  = (Completed 0 out err, fs') →
  let csv := SingleCsv.csv_file (SingleCsv.temp_log_file profile) in
  let k := S (length (spawned (trace st))) in
  let r := SingleCsv.process_profile h sa n i profile acc st in
  let failed :=
    SingleCsv.Tally (SingleCsv.successful_profiles acc)
      (SingleCsv.failed_profiles acc ++ [profile])
      (SingleCsv.all_csv_data acc) in
  let caught (last_events : list event) :=
    r.1 = Val failed
    ∧ files r.2 = fs'
    ∧ ∃ before, trace r.2 = before ++ last_events in
  (PerProfile.process_profile h pa n i profile acc_p st).1
  = Val (acc_p.1 ++ [profile], acc_p.2)
  ∧ (∃ st3,
       PerProfile.process_profiles h pa n i (profile :: rest) acc_p st
       = (Val (acc_p.1 ++ profile :: rest, acc_p.2), st3)
       ∧ ∀ ps st4,
           PerProfile.summary pa ps (acc_p.1 ++ profile :: rest) acc_p.2 st4
           = (Val tt,
              emit_all
                (Print <$> pp_summary_lines pa ps
                             (acc_p.1 ++ profile :: rest) acc_p.2) st4)
           ∧ SuccessfulTarget profile
               (PerProfile.log_file_name pa ++ py "_" ++ profile ++ py ".csv")
             ∈ pp_summary_lines pa ps (acc_p.1 ++ profile :: rest) acc_p.2)
  ∧ match fs' !! csv with
    | Some rows =>
        match read_error h k csv fs', remove_error h k csv fs' with
        | None, None =>
            r.1 = Val (if truthy rows
                       then SingleCsv.Tally
                              (SingleCsv.successful_profiles acc ++ [profile])
                              (SingleCsv.failed_profiles acc)
                              (SingleCsv.all_csv_data acc ++ [rows])
                       else failed)
            ∧ files r.2 = delete csv fs'
            ∧ ∃ before, trace r.2 = before ++ [FileRead csv; FileRemove csv]
        | Some msg, _ =>
            caught [FileRead csv;
                    Print (ExceptionProcessing profile (Error msg))]
        | None, Some msg =>
            caught [FileRead csv; FileRemove csv;
                    Print (ExceptionProcessing profile (Error msg))]
        end
    | None =>
        r.1 = Val failed
        ∧ files r.2 = fs'
        ∧ ∃ before, trace r.2 = before ++ [Print (CsvNotFound profile)]
    end
  ∧ ∃ acc1 acc3 st3,
      r.1 = Val acc1
      ∧ SingleCsv.process_profiles h sa n i (profile :: rest) acc st
        = (Val acc3, st3)
      ∧ (∃ s f d,
           acc3 = SingleCsv.Tally (SingleCsv.successful_profiles acc1 ++ s)
                    (SingleCsv.failed_profiles acc1 ++ f)
                    (SingleCsv.all_csv_data acc1 ++ d))
      ∧ ∀ ps st4,
          SingleCsv.summary sa ps acc3 st4
          = (Val tt, emit_all (Print <$> sc_summary_lines sa ps acc3) st4)
          ∧ (profile ∈ SingleCsv.successful_profiles acc1 →
             SuccessfulProfile profile ∈ sc_summary_lines sa ps acc3)
          ∧ (profile ∈ SingleCsv.failed_profiles acc1 →
             FailedProfile profile ∈ sc_summary_lines sa ps acc3).
Proof.
  intros H csv k r failed caught.
  split; [apply pp_process_profile_val|]. split; [|split].
  - pose proof (pp_process_profiles_val h pa n i (profile :: rest) acc_p st)
      as Hv.
    destruct (PerProfile.process_profiles h pa n i (profile :: rest) acc_p st)
      as [o st3].
    cbn [fst] in Hv. subst o. exists st3. split; [done|]. intros ps st4.
    split; [apply pp_summary_trace|].
    apply (summary_lists ps _ _
             (λ p, SuccessfulTarget p
                     (profile_csv (PerProfile.log_file_name pa) p))).
    apply elem_of_app. right. by left.
  - subst r caught. cbv beta.
    rewrite sc_process_profile_val, sc_process_profile_state.
    rewrite run_deployment_scanner_and_parse_csv_steps.
    cbn [log trace files snd]. rewrite spawned_snoc_print, !scan_call_log.
    unfold turn_rows, collected_rows, files_left, collect_events,
      collect_error.
    rewrite H. cbn [fst snd Z.eqb]. fold csv. fold k.
    destruct (fs' !! csv) as [rows|] eqn:E.
    + destruct (read_error h k csv fs') as [msg|];
        [|destruct (remove_error h k csv fs') as [msg|]].
      * split; [done|]. split; [done|]. eexists. by rewrite !app_assoc.
      * split; [done|]. split; [done|]. eexists. by rewrite !app_assoc.
      * split; [done|]. split; [done|]. eexists. by rewrite !app_assoc.
    + cbn [default]. cbv iota.
      assert (match read_error h k csv fs' with
              | Some msg => Some msg
              | None => remove_error h k csv fs'
              end = None
              ∨ ∃ msg, match read_error h k csv fs' with
                       | Some msg => Some msg
                       | None => remove_error h k csv fs'
                       end = Some msg) as [-> | [msg ->]].
      { destruct (read_error h k csv fs'); [right; eauto|].
        destruct (remove_error h k csv fs'); [right; eauto|by left]. }
      * split; [done|]. split; [by apply delete_id|].
        eexists. by rewrite !app_assoc.
      * split; [done|]. split; [done|]. eexists. by rewrite !app_assoc.
  - pose proof (sc_process_profile_val h sa n i profile acc st) as Hv.
    fold r in Hv. cbn [SingleCsv.process_profiles]. unfold bind.
    fold r. destruct r as [o st1]. cbn [fst] in Hv. subst o.
    eexists. 
    destruct (sc_loop_partition h sa n (S i) rest
                (if truthy (turn_rows h sa profile st)
                 then SingleCsv.Tally
                        (SingleCsv.successful_profiles acc ++ [profile])
                        (SingleCsv.failed_profiles acc)
                        (SingleCsv.all_csv_data acc
                         ++ [turn_rows h sa profile st])
                 else SingleCsv.Tally (SingleCsv.successful_profiles acc)
                        (SingleCsv.failed_profiles acc ++ [profile])
                        (SingleCsv.all_csv_data acc)) st1)
      as (s & f & d & Hl & _).
    destruct (SingleCsv.process_profiles h sa n (S i) rest _ st1)
      as [o st3].
    cbn [fst] in Hl. subst o. eexists _, st3.
    split; [reflexivity|]. split; [reflexivity|].
    split; [by exists s, f, d|]. intros ps st4.
    split; [apply sc_summary_trace|].
    unfold sc_summary_lines. cbn [SingleCsv.successful_profiles
      SingleCsv.failed_profiles].
    split; intros Hp; apply summary_lists; apply elem_of_app; by left.
Qed.

Lemma exit_zero_classification_witness :
  let h := reliable_host
             (λ _ _ fs,
                (Completed 0 [] [],
                 <[py "temp_prod.csv" := [[py "cluster"]; [py "c1"]]]> fs)) in
  let pa := PerProfile.Args (py "us-east-1") None None (py "scan") None
              false in
  let sa := SingleCsv.Args (py "us-east-1") None None (py "all.csv") None
              false in
  let r := SingleCsv.process_profile h sa 1 1 (py "prod")
             (SingleCsv.Tally [] [] []) empty_state in
  (PerProfile.process_profile h pa 1 1 (py "prod") ([], []) empty_state).1
  = Val ([py "prod"], [])
  ∧ SuccessfulTarget (py "prod") (py "scan_prod.csv")
    ∈ pp_summary_lines pa [py "prod"] [py "prod"] []
  ∧ r.1 = Val (SingleCsv.Tally [py "prod"] []
                 [[[py "cluster"]; [py "c1"]]])
  ∧ files r.2 = ∅.
Proof.
  intros h pa sa r.
  pose proof (exit_zero_classification h pa sa 1 1 (py "prod") [] ([], [])
                (SingleCsv.Tally [] [] []) empty_state [] []
                {[py "temp_prod.csv" := [[py "cluster"]; [py "c1"]]]}
                eq_refl) as (Hp & (st3 & _ & Hl) & Hs & _).
  split; [exact Hp|]. split; [exact (proj2 (Hl [py "prod"] empty_state))|].
  change (SingleCsv.csv_file (SingleCsv.temp_log_file (py "prod")))
    with (py "temp_prod.csv") in Hs.
  rewrite lookup_singleton_eq in Hs. cbn [read_error remove_error h
    reliable_host] in Hs. destruct Hs as (Hr & Hf & _).
  split; [exact Hr|]. subst r. rewrite Hf. apply delete_singleton_eq.
Defined.

(** An exit code of 0 with a CSV file that cannot be read, or cannot be
    removed: the profile is counted as failed and the file stays. *)
Example unreadable_csv_fails :
  let sa := SingleCsv.Args (py "us-east-1") None None (py "all.csv")
              (Some (py "prod")) false in
  let left := {[py "temp_prod.csv"
                := [[py "cluster"; py "cost"]; [py "prod"; py "10"]]]} in
  let r := SingleCsv.process_profile unreadable_host sa 1 1 (py "prod")
             (SingleCsv.Tally [] [] []) empty_state in
  let r' := SingleCsv.process_profile unremovable_host sa 1 1 (py "prod")
              (SingleCsv.Tally [] [] []) empty_state in
  r.1 = Val (SingleCsv.Tally [] [py "prod"] [])
  ∧ files r.2 = left
  ∧ last (trace r.2)
    = Some (Print (ExceptionProcessing (py "prod")
                     (Error (py "PermissionError"))))
  ∧ r'.1 = Val (SingleCsv.Tally [] [py "prod"] [])
  ∧ files r'.2 = left.
Proof. cbv zeta. repeat split; by vm_compute. Qed.

(** C3, as stated, fails in the combined-CSV script: a scanner that exits
    with code 0 and leaves no CSV file has its profile counted as
    failed. *)
Lemma exit_zero_without_csv_fails :
  let sa := SingleCsv.Args (py "us-east-1") None None (py "all.csv")
              (Some (py "prod")) false in
  let r := SingleCsv.main sample_host sa empty_state in
  (∀ n i fs, (scanner sample_host n i fs).1 = Completed 0 [] [])
  ∧ (SingleCsv.process_profiles sample_host sa 1 1 [py "prod"]
       (SingleCsv.Tally [] [] []) empty_state).1
    = Val (SingleCsv.Tally [] [py "prod"] [])
  ∧ printed (trace r.2)
    = [UsingSpecified [py "prod"];
       ConfigurationLabel; RegionLine (py "us-east-1");
       OutputFileLine (py "all.csv"); DateRangeDefault;
       ProfilesToProcess [py "prod"];
       Starting 1;
       Progress 1 1 (py "prod");
       BlankRule; ProcessingAwsProfile (py "prod"); Rule;
       Succeeded (py "prod"); CsvNotFound (py "prod");
       BlankRule; ScanCompleted; Rule;
       Total 1; Successful 0; Failed 1;
       FailedLabel; FailedProfile (py "prod");
       CombinedFileLine (py "all.csv")].
Proof. cbv zeta. repeat split; by vm_compute. Qed.

(** * Further properties of the two scripts *)

(** ** Fatal errors before the loop *)

Lemma pp_validate_accepts a st :
  ¬ one_date_only (PerProfile.start_date a) (PerProfile.end_date a) →
  PerProfile.validate_dates a st = (Val tt, st).
Proof.
  unfold one_date_only, PerProfile.validate_dates.
  destruct (PerProfile.start_date a), (PerProfile.end_date a); cbn;
    intros H; first [done | exfalso; apply H; by left
                    | exfalso; apply H; by right].
Qed.

Lemma sc_validate_accepts a st :
  ¬ one_date_only (SingleCsv.start_date a) (SingleCsv.end_date a) →
  SingleCsv.validate_dates a st = (Val tt, st).
Proof.
  unfold one_date_only, SingleCsv.validate_dates.
  destruct (SingleCsv.start_date a), (SingleCsv.end_date a); cbn;
    intros H; first [done | exfalso; apply H; by left
                    | exfalso; apply H; by right].
Qed.

Lemma get_aws_profiles_missing st :
  config st = NoConfig →
  get_aws_profiles st
  = (SysExit 1, emit_all [ConfigStat; Print ConfigNotFound] st).
Proof.
  intros H. unfold get_aws_profiles, bind, config_exists. rewrite H. steps.
Qed.

Lemma get_aws_profiles_unreadable st msg :
  config st = Unreadable msg →
  get_aws_profiles st
  = (SysExit 1,
     emit_all [ConfigStat; ConfigRead; Print (ConfigReadError (Error msg))]
       st).
Proof.
  intros H.
  unfold get_aws_profiles, bind, try_except, config_exists, read_config.
  rewrite H. cbn. rewrite H. steps.
Qed.

(** Without a usable [--profiles] value, [main] of either script is
    [get_aws_profiles] followed by the rest. *)
Lemma pp_main_discovers h a st :
  truthy_opt (PerProfile.profiles a) = false →
  ¬ one_date_only (PerProfile.start_date a) (PerProfile.end_date a) →
  PerProfile.main h a st
  = bind get_aws_profiles
      (λ all_profiles,
         print (FoundProfiles (length all_profiles) all_profiles) ;;
         if negb (truthy all_profiles) then
           print NoProfilesFound ;;
           sys_exit 1
         else pp_rest h a all_profiles) st.
Proof.
  intros Hp Hd. unfold PerProfile.main.
  rewrite (bind_val _ _ _ _ _ (pp_validate_accepts a st Hd)).
  unfold PerProfile.resolve_profiles. rewrite Hp.
  unfold pp_rest, bind.
  destruct (get_aws_profiles st) as [[ps|e|c] st']; [|done..].
  cbn. by destruct ps.
Qed.

Lemma sc_main_discovers h a st :
  truthy_opt (SingleCsv.profiles a) = false →
  ¬ one_date_only (SingleCsv.start_date a) (SingleCsv.end_date a) →
  SingleCsv.main h a st
  = bind get_aws_profiles
      (λ all_profiles,
         print (FoundProfiles (length all_profiles) all_profiles) ;;
         if negb (truthy all_profiles) then
           print NoProfilesFound ;;
           sys_exit 1
         else sc_rest h a all_profiles) st.
Proof.
  intros Hp Hd. unfold SingleCsv.main.
  rewrite (bind_val _ _ _ _ _ (sc_validate_accepts a st Hd)).
  unfold SingleCsv.resolve_profiles. rewrite Hp.
  unfold sc_rest, bind.
  destruct (get_aws_profiles st) as [[ps|e|c] st']; [|done..].
  cbn. by destruct ps.
Qed.

(** X1: without a usable [--profiles] value (none, or the empty string)
    and with accepted dates, either script ends in [sys.exit(1)] when the
    configuration file is missing, after checking that it exists and
    printing one error line, without opening it; and when opening or
    reading it fails, after printing the error.  Nothing else happens: no
    scanner is launched. *)
Theorem config_errors_are_fatal h st (pa : PerProfile.args)
    (sa : SingleCsv.args) :
  truthy_opt (PerProfile.profiles pa) = false →
  truthy_opt (SingleCsv.profiles sa) = false →
  ¬ one_date_only (PerProfile.start_date pa) (PerProfile.end_date pa) →
  ¬ one_date_only (SingleCsv.start_date sa) (SingleCsv.end_date sa) →
  (config st = NoConfig →
   PerProfile.main h pa st
   = (SysExit 1, emit_all [ConfigStat; Print ConfigNotFound] st)
   ∧ SingleCsv.main h sa st
     = (SysExit 1, emit_all [ConfigStat; Print ConfigNotFound] st))
  ∧ (∀ msg,
       config st = Unreadable msg →
       PerProfile.main h pa st
       = (SysExit 1,
          emit_all [ConfigStat; ConfigRead;
                    Print (ConfigReadError (Error msg))] st)
       ∧ SingleCsv.main h sa st
         = (SysExit 1,
            emit_all [ConfigStat; ConfigRead;
                      Print (ConfigReadError (Error msg))] st)).
Proof.
  intros Hp Hs Hdp Hds.
  split; [intros Hc|intros msg Hc];
    rewrite pp_main_discovers, sc_main_discovers by done; unfold bind.
  - by rewrite (get_aws_profiles_missing _ Hc).
  - by rewrite (get_aws_profiles_unreadable _ _ Hc).
Qed.

Lemma config_errors_are_fatal_witness :
  let pa := PerProfile.Args (py "us-east-1") None None (py "scan") None
              false in
  let sa := SingleCsv.Args (py "us-east-1") None None (py "all.csv")
              (Some []) false in
  (PerProfile.main sample_host pa empty_state
   = (SysExit 1, emit_all [ConfigStat; Print ConfigNotFound] empty_state)
   ∧ SingleCsv.main sample_host sa empty_state
     = (SysExit 1, emit_all [ConfigStat; Print ConfigNotFound] empty_state)).
Proof.
  intros pa sa.
  apply (config_errors_are_fatal sample_host empty_state pa sa);
    try reflexivity; unfold one_date_only; cbn; intros [[? ?]|[? ?]]; done.
Defined.

Lemma no_bracket_no_match content :
  lbracket ∉ content → Re.findall profile_pattern content = [].
Proof.
  intros H. unfold Re.findall.
  rewrite <- (app_nil_r content) at 2. rewrite <- Nat.add_1_r.
  rewrite findall_from_skip by done. cbn.
  by destruct (bol_after true content).
Qed.

Lemma no_bracket_no_profiles content :
  lbracket ∉ content → profiles_of_content content = [].
Proof.
  intros H. unfold profiles_of_content. rewrite no_bracket_no_match by done.
  destruct (contains (py "[default]") content) eqn:E; [|done].
  apply contains_spec in E as (pre & post & ->). exfalso. apply H.
  apply elem_of_app. right. by left.
Qed.

(** X2: a configuration file without any opening bracket declares no
    profile: without a usable [--profiles] value either script reads the
    file, reports 0 profiles found and that there is none to process, and
    ends in [sys.exit(1)] before anything is launched. *)
Theorem no_profiles_is_fatal h st content (pa : PerProfile.args)
    (sa : SingleCsv.args) :
  truthy_opt (PerProfile.profiles pa) = false →
  truthy_opt (SingleCsv.profiles sa) = false →
  ¬ one_date_only (PerProfile.start_date pa) (PerProfile.end_date pa) →
  ¬ one_date_only (SingleCsv.start_date sa) (SingleCsv.end_date sa) →
  config st = Config content →
  lbracket ∉ content →
  PerProfile.main h pa st
  = (SysExit 1,
     emit_all [ConfigStat; ConfigRead; Print (FoundProfiles 0 []);
               Print NoProfilesFound] st)
  ∧ SingleCsv.main h sa st
    = (SysExit 1,
       emit_all [ConfigStat; ConfigRead; Print (FoundProfiles 0 []);
                 Print NoProfilesFound] st).
Proof.
  intros Hp Hs Hdp Hds Hc Hb.
  rewrite pp_main_discovers, sc_main_discovers by done. unfold bind.
  rewrite (get_aws_profiles_content _ _ Hc), no_bracket_no_profiles by done.
  split; steps.
Qed.

Lemma no_profiles_is_fatal_witness :
  let content := text [py "# no accounts yet"; py "region = us-east-1"] in
  let pa := PerProfile.Args (py "us-east-1") None None (py "scan") None
              false in
  let sa := SingleCsv.Args (py "us-east-1") None None (py "all.csv") None
              false in
  PerProfile.main sample_host pa (with_config content)
  = (SysExit 1,
     emit_all [ConfigStat; ConfigRead; Print (FoundProfiles 0 []);
               Print NoProfilesFound] (with_config content))
  ∧ SingleCsv.main sample_host sa (with_config content)
    = (SysExit 1,
       emit_all [ConfigStat; ConfigRead; Print (FoundProfiles 0 []);
                 Print NoProfilesFound] (with_config content)).
Proof.
  intros content pa sa.
  apply (no_profiles_is_fatal sample_host (with_config content) content pa sa);
    try reflexivity.
  - unfold one_date_only; cbn; intros [[? ?]|[? ?]]; done.
  - unfold one_date_only; cbn; intros [[? ?]|[? ?]]; done.
  - apply (bool_decide_unpack _). by vm_compute.
Defined.

(** ** The profiles given on the command line *)

Lemma split_join sep s : join sep (split sep s) = s.
Proof.
  induction s as [|c s IH]; [done|]. cbn [split].
  destruct (c =? sep) eqn:E.
  - apply N.eqb_eq in E as ->. pose proof (split_not_nil sep s) as Hn.
    cbn [join]. destruct (split sep s) as [|x l]; [done|].
    cbn [app]. by rewrite IH.
  - pose proof (split_not_nil sep s) as Hn.
    destruct (split sep s) as [|x l]; [done|].
    rewrite <- IH. by destruct l.
Qed.

Lemma split_length sep (s : list N) :
  length (split sep s) = S (length (filter (λ c, c = sep) s)).
Proof.
  induction s as [|c s IH]; [done|]. cbn [split]. rewrite filter_cons.
  destruct (N.eqb_spec c sep) as [->|Hne].
  - rewrite decide_True by done. cbn. by rewrite IH.
  - rewrite decide_False by done. rewrite <- IH.
    pose proof (split_not_nil sep s). by destruct (split sep s).
Qed.

Lemma split_no_sep sep s : Forall (λ t, sep ∉ t) (split sep s).
Proof.
  induction s as [|c s IH]; cbn [split].
  - constructor; [|done]. apply not_elem_of_nil.
  - destruct (N.eqb_spec c sep) as [->|Hne].
    + constructor; [apply not_elem_of_nil|done].
    + pose proof (split_not_nil sep s) as Hn.
      destruct (split sep s) as [|x l]; [done|].
      apply Forall_cons in IH as [Hx Hl]. constructor; [|done].
      apply not_elem_of_cons. by split.
Qed.

Lemma strip_infix s : ∃ u v, s = u ++ strip s ++ v.
Proof.
  unfold strip. destruct (lstrip_suffix s) as [u Hu].
  destruct (rstrip_prefix (lstrip s)) as [v Hv].
  exists u, v. by rewrite <- Hv.
Qed.

Lemma strip_elem c s : c ∈ strip s → c ∈ s.
Proof.
  intros H. destruct (strip_infix s) as (u & v & ->).
  apply elem_of_app. right. apply elem_of_app. by left.
Qed.

Lemma strip_trimmed s : trimmed (strip s).
Proof.
  split.
  - apply rstrip_left_trimmed, lstrip_left_trimmed.
  - unfold strip, rstrip. rewrite rev_involutive. apply lstrip_left_trimmed.
Qed.

Lemma pp_resolve_given a p st :
  p ≠ [] →
  PerProfile.profiles a = Some p →
  PerProfile.resolve_profiles a st
  = (Val (strip <$> split comma p),
     log (Print (UsingSpecified (strip <$> split comma p))) st).
Proof.
  intros Hp Ha. unfold PerProfile.resolve_profiles. rewrite Ha. cbn.
  replace (truthy p) with true by by destruct p.
  unfold bind. cbn. pose proof (split_not_nil comma p).
  by destruct (split comma p).
Qed.

Lemma sc_resolve_given a p st :
  p ≠ [] →
  SingleCsv.profiles a = Some p →
  SingleCsv.resolve_profiles a st
  = (Val (strip <$> split comma p),
     log (Print (UsingSpecified (strip <$> split comma p))) st).
Proof.
  intros Hp Ha. unfold SingleCsv.resolve_profiles. rewrite Ha. cbn.
  replace (truthy p) with true by by destruct p.
  unfold bind. cbn. pose proof (split_not_nil comma p).
  by destruct (split comma p).
Qed.

(** X3: for a non-empty [--profiles] value, either script resolves one
    profile more than the value has commas, never none; the names are the
    stripped pieces of a cut of the value at its commas (joining the
    pieces with commas gives the value back), so that no name contains a
    comma or has white space at either end, while a name may be empty. *)
Theorem profiles_argument_pieces (p : list N) (pa : PerProfile.args)
    (sa : SingleCsv.args) st :
  p ≠ [] →
  PerProfile.profiles pa = Some p →
  SingleCsv.profiles sa = Some p →
  ∃ pieces,
    join comma pieces = p
    ∧ (PerProfile.resolve_profiles pa st).1 = Val (strip <$> pieces)
    ∧ (SingleCsv.resolve_profiles sa st).1 = Val (strip <$> pieces)
    ∧ length (strip <$> pieces) = S (length (filter (λ c, c = comma) p))
    ∧ Forall (λ name, (comma ∉ name) ∧ trimmed name) (strip <$> pieces)
    ∧ strip <$> split comma (py "a, ,b") = [py "a"; []; py "b"].
Proof.
  intros Hp Hpa Hsa. exists (split comma p).
  rewrite (pp_resolve_given _ _ _ Hp Hpa), (sc_resolve_given _ _ _ Hp Hsa).
  split; [apply split_join|]. split; [done|]. split; [done|].
  split; [by rewrite length_fmap, split_length|]. split; [|by vm_compute].
  apply Forall_fmap. eapply Forall_impl; [apply split_no_sep|].
  intros t Ht. cbn. split; [|apply strip_trimmed].
  intros Hin. by apply Ht, strip_elem.
Qed.

Lemma profiles_argument_pieces_witness :
  let pa := PerProfile.Args (py "us-east-1") None None (py "scan")
              (Some (py "prod, dev ,,test")) false in
  let sa := SingleCsv.Args (py "us-east-1") None None (py "all.csv")
              (Some (py "prod, dev ,,test")) false in
  ∃ pieces,
    join comma pieces = py "prod, dev ,,test"
    ∧ (PerProfile.resolve_profiles pa empty_state).1 = Val (strip <$> pieces)
    ∧ (SingleCsv.resolve_profiles sa empty_state).1 = Val (strip <$> pieces)
    ∧ length (strip <$> pieces) = 4%nat.
Proof.
  intros pa sa.
  destruct (profiles_argument_pieces (py "prod, dev ,,test") pa sa
              empty_state) as (pieces & Hj & Hp & Hs & Hl & _);
    [done..|].
  exists pieces. by rewrite Hl.
Defined.

(** ** The launches of the scanner *)

Lemma pp_turn_launch h a n i p acc st :
  let st' := (PerProfile.process_profile h a n i p acc st).2 in
  environ st' = environ st
  ∧ spawned (trace st')
    = spawned (trace st)
      ++ [scan_call h (PerProfile.region a) (PerProfile.start_date a)
            (PerProfile.end_date a) (PerProfile.log_file_name a ++ py "_" ++ p)
            p st].
Proof.
  cbv zeta. rewrite pp_process_profile_state, run_deployment_scanner_steps.
  cbn [snd environ trace log]. split; [done|].
  rewrite !spawned_app, spawned_prints, app_nil_r. cbn.
  by rewrite ?app_nil_r, scan_call_log.
Qed.

Lemma sc_turn_launch h a n i p acc st :
  let st' := (SingleCsv.process_profile h a n i p acc st).2 in
  environ st' = environ st
  ∧ spawned (trace st')
    = spawned (trace st)
      ++ [scan_call h (SingleCsv.region a) (SingleCsv.start_date a)
            (SingleCsv.end_date a) (SingleCsv.temp_log_file p) p st].
Proof.
  cbv zeta.
  rewrite sc_process_profile_state, run_deployment_scanner_and_parse_csv_steps.
  cbn [snd environ trace log]. split; [done|].
  rewrite !spawned_app, spawned_prints, spawned_collect_events, !app_nil_r.
  cbn. by rewrite ?app_nil_r, scan_call_log.
Qed.

(** X4: whatever the scanner does, the loop of either script launches it
    exactly once for each profile, in the order of the list, each time with
    the command built for that profile, the environment of the parent
    with [AWS_PROFILE] set to the profile, the directory of the script as
    working directory and a timeout of 300 seconds.  The name passed
    behind [--log-file-name], with [.csv] appended, is the file that the
    per-profile script reports for the profile and that the combined-CSV
    script looks for. *)
Theorem every_profile_launched h (pa : PerProfile.args) (sa : SingleCsv.args)
    n i ps acc_p acc_s st :
  spawned (trace (PerProfile.process_profiles h pa n i ps acc_p st).2)
  = spawned (trace st)
    ++ ((λ p,
           Invocation
             (command h (PerProfile.region pa) (PerProfile.start_date pa)
                (PerProfile.end_date pa)
                (PerProfile.log_file_name pa ++ py "_" ++ p))
             (<[py "AWS_PROFILE" := p]> (environ st)) (script_dir h) 300)
          <$> ps)
  ∧ spawned (trace (SingleCsv.process_profiles h sa n i ps acc_s st).2)
    = spawned (trace st)
      ++ ((λ p,
             Invocation
               (command h (SingleCsv.region sa) (SingleCsv.start_date sa)
                  (SingleCsv.end_date sa) (SingleCsv.temp_log_file p))
               (<[py "AWS_PROFILE" := p]> (environ st)) (script_dir h) 300)
            <$> ps)
  ∧ (∀ region sd ed name,
       command h region sd ed name !! 5%nat = Some name)
  ∧ (∀ p,
       (PerProfile.log_file_name pa ++ py "_" ++ p) ++ py ".csv"
       = PerProfile.log_file pa p).
Proof.
  split; [|split; [|split]].
  - revert i acc_p st. induction ps as [|p ps IH]; intros i acc st; cbn.
    { by rewrite app_nil_r. }
    unfold bind.
    pose proof (pp_process_profile_val h pa n i p acc st) as Hv.
    destruct (pp_turn_launch h pa n i p acc st) as [He Hs].
    destruct (PerProfile.process_profile h pa n i p acc st) as [o st'].
    cbn [fst snd] in Hv, He, Hs. subst o. rewrite IH, Hs, He.
    by rewrite <- app_assoc.
  - revert i acc_s st. induction ps as [|p ps IH]; intros i acc st; cbn.
    { by rewrite app_nil_r. }
    unfold bind.
    pose proof (sc_process_profile_val h sa n i p acc st) as Hv.
    destruct (sc_turn_launch h sa n i p acc st) as [He Hs].
    destruct (SingleCsv.process_profile h sa n i p acc st) as [o st'].
    cbn [fst snd] in Hv, He, Hs. subst o. rewrite IH, Hs, He.
    by rewrite <- app_assoc.
  - intros region sd ed name. unfold command.
    by destruct (truthy_opt sd), (truthy_opt ed).
  - intros p. unfold PerProfile.log_file. by rewrite <- !app_assoc.
Qed.

(** ** Failures of the scanner *)



(** X6: when the scanner does not exit with code 0 (another exit code, a
    timeout, a failure to launch), the combined-CSV script counts the
    profile as failed and neither reads nor removes any file: a CSV file
    that the scanner left for the profile stays where it is and its rows
    are not used. *)
Theorem failed_scan_reads_nothing h (sa : SingleCsv.args) n i profile acc st :
  let call :=
    scan_call h (SingleCsv.region sa) (SingleCsv.start_date sa)
      (SingleCsv.end_date sa) (SingleCsv.temp_log_file profile) profile st in
  let r := scanner h (length (spawned (trace st))) call (files st) in
  let res := SingleCsv.process_profile h sa n i profile acc st in
  match r.1 with Completed rc _ _ => rc ≠ 0%Z | _ => True end →
  res.1 = Val (SingleCsv.Tally (SingleCsv.successful_profiles acc)
                 (SingleCsv.failed_profiles acc ++ [profile])
                 (SingleCsv.all_csv_data acc))
  ∧ files res.2 = r.2
  ∧ ∃ lines,
      trace res.2
      = trace st
        ++ [Print (Progress i n profile); Print BlankRule;
            Print (ProcessingAwsProfile profile); Print Rule; Spawn call]
        ++ (Print <$> lines).
Proof.
  intros call r res Hr. subst res.
  rewrite sc_process_profile_val, sc_process_profile_state.
  rewrite run_deployment_scanner_and_parse_csv_steps.
  cbn [log trace files snd]. rewrite spawned_snoc_print, !scan_call_log.
  unfold turn_rows, collected_rows, files_left, collect_events.
  fold call. fold r.
  assert (match r.1 with
          | Completed rc _ _ => (rc =? 0)%Z = false
          | _ => True
          end) as Hz.
  { destruct r.1; [|done..]. by apply Z.eqb_neq. }
  split; [|split; [|exists (report_lines profile r.1)]];
    (destruct r.1 as [rc out err| |msg]; cbn; rewrite ?Hz;
     rewrite <- ?app_assoc; cbn; by rewrite ?app_nil_r).
Qed.

Lemma failed_scan_reads_nothing_witness :
  let h := reliable_host
             (λ _ _ fs,
                (Completed 2 [] (py "Throttled"),
                 <[py "temp_prod.csv" := [[py "cluster"]; [py "c1"]]]> fs)) in
  let sa := SingleCsv.Args (py "us-east-1") None None (py "all.csv") None
              false in
  let res := SingleCsv.process_profile h sa 1 1 (py "prod")
               (SingleCsv.Tally [] [] []) empty_state in
  res.1 = Val (SingleCsv.Tally [] [py "prod"] [])
  ∧ files res.2 = {[py "temp_prod.csv" := [[py "cluster"]; [py "c1"]]]}.
Proof.
  intros h sa res.
  destruct (failed_scan_reads_nothing h sa 1 1 (py "prod")
              (SingleCsv.Tally [] [] []) empty_state) as (Hv & Hf & _).
  - by cbn.
  - split; [exact Hv|]. subst res. by rewrite Hf.
Defined.

(** ** Merging and counting *)

(** X7: [write_combined_csv] never looks at the first row of a list other
    than the one that gives the header: with a different first row in a
    later list it does the same, on every host, and so writes the same
    file, so that rows with another layout end up under the first
    header. *)
Theorem later_headers_ignored h (d0 : list row) (a b : list (list row))
    (h1 h2 : row) (t : list row) out st :
  d0 ≠ [] →
  SingleCsv.write_combined_csv h (d0 :: a ++ (h1 :: t) :: b) out st
  = SingleCsv.write_combined_csv h (d0 :: a ++ (h2 :: t) :: b) out st.
Proof.
  intros Hd. unfold SingleCsv.write_combined_csv.
  rewrite !data_rows_concat. cbn [SingleCsv.first_header truthy negb].
  destruct d0 as [|r0 d0]; [done|]. cbn.
  by rewrite !fmap_app, !concat_app.
Qed.

Lemma later_headers_ignored_witness :
  let header := [py "cluster"; py "cost"] in
  let other := [py "cost"; py "cluster"; py "region"] in
  let r1 := [py "c1"; py "10"] in
  let r2 := [py "20"; py "c2"; py "eu-west-1"] in
  SingleCsv.write_combined_csv sample_host [[header; r1]; [other; r2]]
    (py "all.csv") empty_state
  = SingleCsv.write_combined_csv sample_host [[header; r1]; [header; r2]]
      (py "all.csv") empty_state.
Proof.
  intros header other r1 r2.
  by apply (later_headers_ignored sample_host [header; r1] [] [] other header
              [r2]).
Defined.

(** X8: the loop of the combined-CSV script puts every profile in exactly
    one of [successful_profiles] and [failed_profiles], each list in the
    order of the profiles, so that the two counts of the summary add up to
    the total; it keeps one list of rows for each successful profile, and
    none of these lists is empty, so that [write_combined_csv] is never
    handed an empty list of rows by [main]. *)
Theorem every_profile_counted_once h (sa : SingleCsv.args) n i ps st :
  ∃ s f d,
    (SingleCsv.process_profiles h sa n i ps (SingleCsv.Tally [] [] []) st).1
    = Val (SingleCsv.Tally s f d)
    ∧ s ++ f ≡ₚ ps
    ∧ s `sublist_of` ps
    ∧ f `sublist_of` ps
    ∧ (length s + length f = length ps)%nat
    ∧ length d = length s
    ∧ Forall (λ rows, rows ≠ []) d.
Proof.
  destruct (sc_loop_partition h sa n i ps (SingleCsv.Tally [] [] []) st)
    as (s & f & d & Hr & Hp & Hs & Hf & Hl & Hd).
  exists s, f, d. repeat split; try done.
  by rewrite <- length_app, Hp.
Qed.


(** ** What a profile name can be *)

(** A run matched by [C+] is a non-empty run of the class, and the rest of
    the pattern matched behind it. *)
Lemma plus_run {R} p g s (k : Re.cursor → option R) m :
  Re.plus p g s k = Some m →
  ∃ a s' b,
    s = a ++ s' ∧ a ≠ [] ∧ Forall (λ c, p c = true) a
    ∧ k (Re.Cursor b s' g) = Some m.
Proof.
  induction s as [|c s IH]; cbn [Re.plus]; [done|].
  destruct (p c) eqn:Ec; [|done].
  destruct (Re.plus p g s k) as [m'|] eqn:E.
  - intros [= ->]. destruct (IH eq_refl) as (a & s' & b & -> & Ha & Hp & Hk).
    exists (c :: a), s', b. repeat split; try done. by constructor.
  - intros Hk. exists [c], s, (is_newline c). repeat split; try done.
    by constructor.
Qed.

Lemma name_part_capture cur m :
  Re.run name_part cur Some = Some m →
  ∃ u, Re.grp m = Some u ∧ u ≠ [] ∧ rbracket ∉ u.
Proof.
  cbn [name_part Re.run]. intros H.
  apply plus_run in H as (a & s' & b & Hs & Ha & Hp & Hk).
  cbn [Re.rest Re.grp Re.bol] in Hk. rewrite Hs, length_app in Hk.
  replace (length a + length s' - length s')%nat with (length a) in Hk
    by lia.
  rewrite take_app_length in Hk.
  destruct s' as [|x s']; [done|]. destruct (x =? rbracket); [|done].
  injection Hk as <-. exists a. split; [done|]. split; [done|].
  intros Hin. rewrite Forall_forall in Hp. specialize (Hp _ Hin).
  unfold not_rbracket in Hp. by rewrite N.eqb_refl in Hp.
Qed.

Lemma profile_match_capture b s m :
  Re.match_at profile_pattern b s = Some m →
  ∃ u, Re.grp m = Some u ∧ u ≠ [] ∧ rbracket ∉ u.
Proof.
  unfold Re.match_at.
  change (Re.run profile_pattern (Re.Cursor b s None) Some)
    with (if b
          then match s with
               | [] => None
               | x :: s' =>
                   if x =? lbracket
                   then Re.run (Re.Seq (Re.Opt keyword_part) name_part)
                          (Re.Cursor (is_newline x) s' None) Some
                   else None
               end
          else None).
  destruct b; [|done]. destruct s as [|x s]; [done|].
  destruct (x =? lbracket); [|done]. intros H.
  change (Re.run (Re.Opt keyword_part)
            (Re.Cursor (is_newline x) s None)
            (λ cur', Re.run name_part cur' Some) = Some m) in H.
  apply run_shrinks in H as (cur & H & _).
  by apply name_part_capture in H.
Qed.

Lemma findall_from_Forall (P : str → Prop) n r b s :
  (∀ b s m, Re.match_at r b s = Some m → P (default [] (Re.grp m))) →
  Forall P (Re.findall_from n r b s).
Proof.
  intros HP. revert b s. induction n as [|n IH]; intros b s; [done|].
  cbn [Re.findall_from]. destruct (Re.match_at r b s) as [m|] eqn:E.
  - constructor; [by eapply HP|]. case_decide; [apply IH|].
    destruct s; [done|apply IH].
  - destruct s; [done|apply IH].
Qed.

(** X10: no profile name that [get_aws_profiles] returns contains a
    closing bracket, and none is empty: a name is cut from the text
    between an opening bracket at the start of a line and the first
    closing bracket behind it. *)
Theorem names_have_no_closing_bracket st content :
  config st = Config content →
  ∃ ps,
    (get_aws_profiles st).1 = Val ps
    ∧ Forall (λ name, (rbracket ∉ name) ∧ name ≠ []) ps.
Proof.
  intros H. exists (profiles_of_content content).
  rewrite (get_aws_profiles_content _ _ H). split; [done|].
  unfold profiles_of_content.
  assert (Forall (λ name, (rbracket ∉ name) ∧ name ≠ [])
            (named_profiles (Re.findall profile_pattern content))) as Hn.
  { rewrite named_profiles_filter. apply Forall_fmap, Forall_forall.
    intros m [[Hne _] Hm]%list_elem_of_filter. cbn. split; [|done].
    pose proof (findall_from_Forall (λ u, rbracket ∉ u)
                  (S (length content)) profile_pattern true content) as Hf.
    rewrite Forall_forall in Hf. intros Hin. apply strip_elem in Hin.
    revert Hin. apply Hf; [|exact Hm].
    intros b s m' Hm'. apply profile_match_capture in Hm' as (u & -> & _ & Hu).
    exact Hu. }
  destruct (contains _ _); [|done].
  apply Forall_app. split; [done|]. constructor; [|done].
  split; [|done]. apply (bool_decide_unpack _). by vm_compute.
Qed.

Lemma names_have_no_closing_bracket_witness :
  ∃ ps,
    (get_aws_profiles
       (with_config (text [py "[a]] x"; py "[profile b"; py "c]";
                           py "[default]"]))).1
    = Val ps
    ∧ Forall (λ name, (rbracket ∉ name) ∧ name ≠ []) ps.
Proof.
  apply (names_have_no_closing_bracket
           (with_config (text [py "[a]] x"; py "[profile b"; py "c]";
                               py "[default]"]))
           (text [py "[a]] x"; py "[profile b"; py "c]"; py "[default]"])).
  reflexivity.
Defined.

Lemma findall_no_bracket n b t :
  (length t < n)%nat →
  lbracket ∉ t → Re.findall_from n profile_pattern b t = [].
Proof.
  intros Hn Ht.
  rewrite (findall_from_enough _ (length t + 1) _ _ _); [|lia..].
  rewrite <- (app_nil_r t) at 2. rewrite findall_from_skip by done. cbn.
  by destruct (bol_after b t).
Qed.

(** X11: a section name runs from the opening bracket to the first closing
    bracket, also across line ends and further opening brackets: for a
    file that starts with an opening bracket, has a closing bracket, and
    has no opening bracket behind it, [get_aws_profiles] returns the one
    name between the two, stripped (followed by "default" when the text
    "[default]" occurs).  So a section line that lacks its closing bracket
    takes the following lines up to the next closing bracket into its
    name. *)
Theorem name_spans_lines st name t :
  config st = Config (lbracket :: name ++ rbracket :: t) →
  rbracket ∉ name →
  lbracket ∉ t →
  (∀ c u, name = py "profile" ++ c :: u → is_space c = false) →
  strip name ≠ [] →
  strip name ≠ py "default" →
  (get_aws_profiles st).1
  = Val (strip name
         :: if contains (py "[default]") (lbracket :: name ++ rbracket :: t)
            then [py "default"] else []).
Proof.
  intros Hc Hr Ht Hname Hne Hd.
  rewrite (get_aws_profiles_content _ _ Hc). cbn [fst]. f_equal.
  unfold profiles_of_content, Re.findall. cbn [Re.findall_from].
  rewrite match_section; [|done| |done].
  2:{ intros ->. by apply Hne. }
  cbn [Re.grp Re.rest Re.bol default].
  rewrite decide_True by (cbn; rewrite length_app; cbn; lia).
  rewrite findall_no_bracket;
    [|cbn [length]; rewrite length_app; cbn [length]; lia|done].
  unfold id. cbn [named_profiles].
  apply truthy_true in Hne. rewrite Hne.
  rewrite bool_decide_eq_false_2 by done. cbn [negb andb].
  by destruct (contains _ _).
Qed.

Lemma name_spans_lines_witness :
  (get_aws_profiles
     (with_config (text [py "[prod"; py "region = us-east-1"; py "[dev]";
                         py "region = eu-west-1"]))).1
  = Val [py "prod" ++ newline :: py "region = us-east-1" ++ newline
         :: py "[dev"].
Proof.
  pose proof (name_spans_lines
                (with_config (text [py "[prod"; py "region = us-east-1";
                                    py "[dev]"; py "region = eu-west-1"]))
                (py "prod" ++ newline :: py "region = us-east-1" ++ newline
                 :: py "[dev")
                (newline :: py "region = eu-west-1" ++ [newline])
                eq_refl) as H.
  rewrite H.
  - by vm_compute.
  - apply (bool_decide_unpack _). by vm_compute.
  - apply (bool_decide_unpack _). by vm_compute.
  - intros c u Hu. by vm_compute in Hu.
  - by vm_compute.
  - by vm_compute.
Defined.

(** ** Dates that are given but empty *)

(** X12: the check of the dates tells given from not given, the command
    and the configuration lines tell empty from non-empty: an empty
    [--start-date] together with a non-empty [--end-date] passes the
    check in either script, the date range is then announced as the
    default one, and the scanner is launched with [--end-date] alone. *)
Theorem empty_start_date_is_dropped h st e name (pa : PerProfile.args)
    (sa : SingleCsv.args) ps :
  e ≠ [] →
  PerProfile.start_date pa = Some [] →
  PerProfile.end_date pa = Some e →
  SingleCsv.start_date sa = Some [] →
  SingleCsv.end_date sa = Some e →
  PerProfile.validate_dates pa st = (Val tt, st)
  ∧ SingleCsv.validate_dates sa st = (Val tt, st)
  ∧ printed (trace (PerProfile.show_configuration pa ps st).2)
    = printed (trace st)
      ++ [ConfigurationLabel; RegionLine (PerProfile.region pa);
          BaseLogLine (PerProfile.log_file_name pa); DateRangeDefault;
          ProfilesToProcess ps]
  ∧ printed (trace (SingleCsv.show_configuration sa ps st).2)
    = printed (trace st)
      ++ [ConfigurationLabel; RegionLine (SingleCsv.region sa);
          OutputFileLine (SingleCsv.output_file sa); DateRangeDefault;
          ProfilesToProcess ps]
  ∧ command h (PerProfile.region pa) (PerProfile.start_date pa)
      (PerProfile.end_date pa) name
    = [executable h; py "deployment-scanner.py"; py "--region";
       PerProfile.region pa; py "--log-file-name"; name; py "--end-date"; e]
  ∧ command h (SingleCsv.region sa) (SingleCsv.start_date sa)
      (SingleCsv.end_date sa) name
    = [executable h; py "deployment-scanner.py"; py "--region";
       SingleCsv.region sa; py "--log-file-name"; name; py "--end-date"; e].
Proof.
  intros He Hps Hpe Hss Hse.
  unfold PerProfile.validate_dates, SingleCsv.validate_dates,
    PerProfile.show_configuration, SingleCsv.show_configuration, command.
  rewrite Hps, Hpe, Hss, Hse. destruct e as [|c e]; [done|].
  repeat split; try done; steps; rewrite !printed_app; cbn;
    by rewrite <- ?app_assoc.
Qed.

Lemma empty_start_date_is_dropped_witness :
  let pa := PerProfile.Args (py "us-east-1") (Some []) (Some (py "20240131"))
              (py "scan") None false in
  PerProfile.validate_dates pa empty_state = (Val tt, empty_state)
  ∧ command sample_host (PerProfile.region pa) (PerProfile.start_date pa)
      (PerProfile.end_date pa) (py "scan_prod")
    = [py "/usr/bin/python3"; py "deployment-scanner.py"; py "--region";
       py "us-east-1"; py "--log-file-name"; py "scan_prod";
       py "--end-date"; py "20240131"].
Proof.
  intros pa.
  destruct (empty_start_date_is_dropped sample_host empty_state
              (py "20240131") (py "scan_prod") pa
              (SingleCsv.Args (py "us-east-1") (Some [])
                 (Some (py "20240131")) (py "all.csv") None false) [])
    as (Hv & _ & _ & _ & Hc & _); done.
Defined.

(** ** A run in which every scan fails *)

Lemma after_bind (cls : event → bool) {A B} (m : M A) (f : A → M B) st :
  after cls st (m st).2 →
  (∀ a st', m st = (Val a, st') → after cls st' (f a st').2) →
  after cls st (bind m f st).2.
Proof.
  intros Hm Hf. unfold bind. destruct (m st) as [[a|e|c] st'] eqn:E;
    cbn in *; [|done..].
  eapply after_trans; [exact Hm|by apply Hf].
Qed.

Lemma plan_event_no_file_op e : plan_event e = true → no_file_op e = true.
Proof. by destruct e. Qed.

Lemma preflight_no_file_op e : preflight_print e = true → no_file_op e = true.
Proof. by destruct e. Qed.

Lemma plan_print_no_file_op e : plan_print e = true → no_file_op e = true.
Proof. by destruct e. Qed.

Lemma sc_summary_no_file_op a ps acc :
  keeps no_file_op (SingleCsv.summary a ps acc).
Proof. unfold SingleCsv.summary. keeps_tac. Qed.

Lemma sc_turn_fails h a n i p acc st :
  never_succeeds h →
  (SingleCsv.process_profile h a n i p acc st).1
  = Val (SingleCsv.Tally (SingleCsv.successful_profiles acc)
           (SingleCsv.failed_profiles acc ++ [p])
           (SingleCsv.all_csv_data acc))
  ∧ after no_file_op st (SingleCsv.process_profile h a n i p acc st).2.
Proof.
  intros Hh.
  pose proof (Hh (length (spawned (trace st)))
                (scan_call h (SingleCsv.region a) (SingleCsv.start_date a)
                   (SingleCsv.end_date a) (SingleCsv.temp_log_file p) p st)
                (files st)) as Hr.
  assert (match (scanner h (length (spawned (trace st)))
                   (scan_call h (SingleCsv.region a) (SingleCsv.start_date a)
                      (SingleCsv.end_date a) (SingleCsv.temp_log_file p) p st)
                   (files st)).1 with
          | Completed rc _ _ => (rc =? 0)%Z = false
          | _ => True
          end) as Hz.
  { destruct (scanner h _ _ _).1; [|done..]. by apply Z.eqb_neq. }
  clear Hr. split.
  - rewrite sc_process_profile_val. unfold turn_rows, collected_rows.
    destruct (scanner h _ _ _).1; [by rewrite Hz|done..].
  - rewrite sc_process_profile_state.
    rewrite run_deployment_scanner_and_parse_csv_steps.
    cbn [log trace files snd environ config heap].
    rewrite spawned_snoc_print, !scan_call_log.
    unfold collect_events. rewrite <- app_assoc.
    apply after_events.
    + apply Forall_app. split; [by repeat constructor|].
      apply Forall_app. split; [by repeat constructor|].
      apply Forall_app. split; [by apply Forall_prints|].
      destruct (scanner h _ _ _).1; [by rewrite Hz|done..].
    + intros Hf. apply Forall_app in Hf as [_ Hf].
      apply Forall_app in Hf as [Hf _].
      by do 4 apply Forall_cons in Hf as [? Hf].
Qed.

Lemma sc_loop_fails h a n i ps acc st :
  never_succeeds h →
  (SingleCsv.process_profiles h a n i ps acc st).1
  = Val (SingleCsv.Tally (SingleCsv.successful_profiles acc)
           (SingleCsv.failed_profiles acc ++ ps)
           (SingleCsv.all_csv_data acc))
  ∧ after no_file_op st (SingleCsv.process_profiles h a n i ps acc st).2.
Proof.
  intros Hh. revert i acc st.
  induction ps as [|p ps IH]; intros i acc st; cbn.
  - rewrite app_nil_r. split; [by destruct acc|apply after_refl].
  - unfold bind. destruct (sc_turn_fails h a n i p acc st Hh) as [Hv Ha].
    destruct (SingleCsv.process_profile h a n i p acc st) as [o st'].
    cbn [fst snd] in Hv, Ha. subst o.
    destruct (IH (S i)
                (SingleCsv.Tally (SingleCsv.successful_profiles acc)
                   (SingleCsv.failed_profiles acc ++ [p])
                   (SingleCsv.all_csv_data acc)) st') as [Hv' Ha'].
    split.
    + rewrite Hv'. cbn. by rewrite <- app_assoc.
    + eapply after_trans; [exact Ha|exact Ha'].
Qed.

(** X13: when the scanner exits with code 0 for no profile, the
    combined-CSV script reads, removes and writes no CSV file in the whole
    run of [main]: no combined file is written, and every profile that
    the loop goes through ends up in [failed_profiles]. *)
Theorem all_failed_writes_nothing h (sa : SingleCsv.args) st :
  never_succeeds h →
  (∃ evs,
     trace (SingleCsv.main h sa st).2 = trace st ++ evs
     ∧ Forall (λ e, no_file_op e = true) evs)
  ∧ ∀ n i ps st0,
      (SingleCsv.process_profiles h sa n i ps (SingleCsv.Tally [] [] [])
         st0).1
      = Val (SingleCsv.Tally [] ps []).
Proof.
  intros Hh. split.
  2:{ intros n i ps st0.
      by destruct (sc_loop_fails h sa n i ps (SingleCsv.Tally [] [] []) st0
                     Hh) as [-> _]. }
  assert (after no_file_op st (SingleCsv.main h sa st).2) as Ha.
  { rewrite sc_main_split. apply after_bind.
    { eapply after_mono; [exact plan_event_no_file_op|].
      apply sc_preflight_keeps. }
    intros ps st1 _. unfold sc_rest. apply after_bind.
    { eapply after_mono; [exact preflight_no_file_op|].
      apply sc_show_configuration. }
    intros _ st2 _. destruct (SingleCsv.dry_run sa).
    { eapply after_mono; [exact plan_print_no_file_op|].
      apply sc_dry_run_report. }
    apply after_bind; [by apply keeps_print|]. intros _ st3 _.
    destruct (sc_loop_fails h sa (length ps) 1 ps (SingleCsv.Tally [] [] [])
                st3 Hh) as [Hv Hl].
    apply after_bind; [exact Hl|]. intros acc st4 Hacc.
    rewrite Hacc in Hv. cbn in Hv. injection Hv as ->. cbn [when truthy].
    apply after_bind; [apply after_refl|]. intros _ st5 _.
    apply sc_summary_no_file_op. }
  destruct Ha as (_ & _ & evs & Ht & Hq & _). by exists evs.
Qed.

Lemma all_failed_writes_nothing_witness :
  let sa := SingleCsv.Args (py "us-east-1") None None (py "all.csv")
              (Some (py "prod,dev")) false in
  ∃ evs,
    trace (SingleCsv.main timeout_host sa empty_state).2
    = trace empty_state ++ evs
    ∧ Forall (λ e, no_file_op e = true) evs.
Proof.
  intros sa.
  apply (all_failed_writes_nothing timeout_host sa empty_state).
  by intros n i fs.
Defined.

(** ** Well-formed configuration files *)

Lemma match_header hd body rest :
  well_formed (hd, body) →
  Re.match_at profile_pattern true (render_header hd ++ body ++ rest)
  = Some (Re.Cursor false (body ++ rest) (Some (captured hd))).
Proof.
  intros (Hr & Hne & Hk & _ & _). destruct hd as [name|name]; cbn in *.
  - rewrite <- app_assoc. apply match_section; [done| |done].
    intros ->. by apply Hne.
  - rewrite <- !app_assoc. cbn [app].
    apply match_profile_section; [done|].
    intros E. apply Hne. unfold strip. by rewrite E.
Qed.

Lemma render_header_length hd : (0 < length (render_header hd))%nat.
Proof. destruct hd; cbn; rewrite ?length_app; cbn; lia. Qed.

Lemma findall_sections secs n :
  Forall well_formed secs →
  (length (render_sections secs) < n)%nat →
  Re.findall_from n profile_pattern true (render_sections secs)
  = (λ sec, captured sec.1) <$> secs.
Proof.
  intros Hw. revert n. induction Hw as [|[hd body] secs Hsec Hw IH];
    intros n Hn.
  - destruct n; [lia|]. done.
  - destruct n as [|n]; [lia|].
    change (render_sections ((hd, body) :: secs))
      with ((render_header hd ++ body) ++ render_sections secs) in *.
    rewrite <- app_assoc in *. cbn [Re.findall_from].
    rewrite match_header by done. cbn [Re.grp Re.rest Re.bol default].
    pose proof (render_header_length hd) as Hl.
    rewrite !length_app in Hn.
    rewrite decide_True by (rewrite !length_app; lia).
    cbn [fmap list_fmap fst]. f_equal.
    rewrite (findall_from_enough _
               (length body + S (length (render_sections secs))));
      [|rewrite length_app; lia..].
    destruct Hsec as (_ & _ & _ & Hb & b & Hbody). cbn in Hb, Hbody.
    rewrite findall_from_skip by done.
    rewrite Hbody, bol_after_app. cbn [bol_after].
    apply IH. lia.
Qed.

(** X14: for a configuration file made of lines without an opening
    bracket followed by well-formed sections (a header [[name]] or
    [[profile name]] at the start of a line, a name without closing
    bracket that is not blank, text without an opening bracket up to the
    next header), [get_aws_profiles] returns exactly the stripped names of
    the sections other than "default", in the order of the file, followed
    by "default" when the text "[default]" occurs. *)
Theorem well_formed_file_names st pre secs :
  config st = Config (pre ++ render_sections secs) →
  plain_lines pre →
  Forall well_formed secs →
  (get_aws_profiles st).1
  = Val (filter (λ name, name ≠ py "default")
           ((λ sec, strip (header_name sec.1)) <$> secs)
         ++ if contains (py "[default]") (pre ++ render_sections secs)
            then [py "default"] else []).
Proof.
  intros Hc Hpre Hw. rewrite (get_aws_profiles_content _ _ Hc). cbn [fst].
  f_equal. unfold profiles_of_content, Re.findall.
  rewrite length_app.
  replace (S (length pre + length (render_sections secs)))
    with (length pre + S (length (render_sections secs)))%nat by lia.
  rewrite findall_from_skip by apply Hpre.
  rewrite (plain_lines_bol _ Hpre), findall_sections by (done || lia).
  assert (named_profiles ((λ sec, captured sec.1) <$> secs)
          = filter (λ name, name ≠ py "default")
              ((λ sec, strip (header_name sec.1)) <$> secs)) as ->.
  { clear Hc. induction Hw as [|[hd body] secs Hsec Hw IH]; [done|].
    cbn [fmap list_fmap named_profiles fst]. rewrite filter_cons.
    destruct Hsec as (_ & Hne & _). cbn [fst] in Hne.
    assert (strip (captured hd) = strip (header_name hd)) as ->.
    { destruct hd; [done|apply strip_lstrip]. }
    apply truthy_true in Hne. rewrite Hne. cbn [andb].
    fold (@fmap list _ _ _ (λ sec : header * str, captured sec.1) secs).
    destruct (bool_decide_reflect (strip (header_name hd) = py "default"))
      as [Hd|Hd]; cbn [negb].
    - rewrite decide_False by tauto. exact IH.
    - rewrite decide_True by done. f_equal. exact IH. }
  by destruct (contains _ _); rewrite ?app_nil_r.
Qed.

Lemma well_formed_file_names_witness :
  (get_aws_profiles
     (with_config
        (text [py "# accounts"; py "[default]"; py "region = us-east-1";
               py "[profile  dev ]"; py "role_arn = x"; py "[prod]";
               py "region = eu-west-1"]))).1
  = Val [py "dev"; py "prod"; py "default"].
Proof.
  pose proof (well_formed_file_names
                (with_config
                   (text [py "# accounts"; py "[default]";
                          py "region = us-east-1"; py "[profile  dev ]";
                          py "role_arn = x"; py "[prod]";
                          py "region = eu-west-1"]))
                (text [py "# accounts"])
                [(Plain (py "default"), text [[]; py "region = us-east-1"]);
                 (Keyword (py " dev "), text [[]; py "role_arn = x"]);
                 (Plain (py "prod"), text [[]; py "region = eu-west-1"])]
                eq_refl) as H.
  rewrite H.
  - by vm_compute.
  - split; [apply (bool_decide_unpack _); by vm_compute|].
    right. by exists (py "# accounts").
  - repeat constructor; cbn;
      try (apply (bool_decide_unpack _); by vm_compute);
      try (by vm_compute);
      try (intros c u Hu; by vm_compute in Hu).
    + by exists (newline :: py "region = us-east-1").
    + by exists (newline :: py "role_arn = x").
    + by exists (newline :: py "region = eu-west-1").
Defined.

(** ** Files and the per-profile script *)

Lemma pp_scanner_no_file_op h profile region sd ed lfn :
  keeps no_file_op
    (PerProfile.run_deployment_scanner h profile region sd ed lfn).
Proof.
  intros st. rewrite run_deployment_scanner_steps. cbn [snd].
  apply after_events.
  - apply Forall_app. split; [by repeat constructor|by apply Forall_prints].
  - intros Hf. apply Forall_app in Hf as [Hf _].
    by do 4 apply Forall_cons in Hf as [? Hf].
Qed.
#[global] Hint Resolve pp_scanner_no_file_op : keeps.

Lemma pp_loop_no_file_op h a n i ps acc :
  keeps no_file_op (PerProfile.process_profiles h a n i ps acc).
Proof.
  revert i acc. induction ps as [|p ps IH]; intros i acc; cbn.
  - apply keeps_ret.
  - apply keeps_bind; [|intros acc'; apply IH].
    unfold PerProfile.process_profile. destruct acc as [s f]. keeps_tac.
Qed.

Lemma pp_summary_no_file_op a ps s f :
  keeps no_file_op (PerProfile.summary a ps s f).
Proof. unfold PerProfile.summary. keeps_tac. Qed.

(** X15: the per-profile script itself never reads, removes or writes a
    CSV file, in no run of [main]: the files named in its summary are left
    to the scanner. *)
Theorem per_profile_script_touches_no_file h (pa : PerProfile.args) st :
  ∃ evs,
    trace (PerProfile.main h pa st).2 = trace st ++ evs
    ∧ Forall (λ e, no_file_op e = true) evs.
Proof.
  assert (keeps no_file_op (PerProfile.main h pa)) as Hk.
  { eapply keeps_split; [apply pp_main_split| |intros ps].
    - eapply keeps_mono; [exact plan_event_no_file_op|].
      apply pp_preflight_keeps.
    - unfold pp_rest. apply keeps_bind; [|intros _].
      { eapply keeps_mono; [exact preflight_no_file_op|].
        apply pp_show_configuration. }
      destruct (PerProfile.dry_run pa).
      { eapply keeps_mono; [exact plan_print_no_file_op|].
        apply pp_dry_run_report. }
      apply keeps_bind; [by apply keeps_print|intros _].
      apply keeps_bind; [apply pp_loop_no_file_op|intros [s f]].
      apply pp_summary_no_file_op. }
  destruct (Hk st) as (_ & _ & evs & Ht & Hq & _). by exists evs.
Qed.

(** ** The combined file of a run *)

(** X16: in a run of the combined-CSV script that is not a dry run, when
    the loop has ended with the lists of rows [all_csv_data], the first
    list is never empty.  When no profile succeeded, or when the first row
    of the first list has no field, [main] returns and the files are
    those at the end of the loop.  Otherwise the output file is opened
    for the first row of the first list followed by the rows behind the
    first row of every list, in the order in which the profiles
    succeeded: when that works, [main] returns and the files at its end
    are those at the end of the loop with the output file set to these
    rows; when opening the file raises, [main] ends with that exception
    and the files are those at the end of the loop; when a later write
    raises, [main] ends with that exception and the output file holds
    what got through. *)
Theorem combined_file_of_run h (sa : SingleCsv.args) st ps st1 acc st4 :
  SingleCsv.dry_run sa = false →
  sc_preflight sa st = (Val ps, st1) →
  SingleCsv.process_profiles h sa (length ps) 1 ps (SingleCsv.Tally [] [] [])
    (log (Print (Starting (length ps)))
       (SingleCsv.show_configuration sa ps st1).2)
  = (Val acc, st4) →
  let out := SingleCsv.output_file sa in
  let r := SingleCsv.main h sa st in
  match SingleCsv.all_csv_data acc with
  | [] => r.1 = Val tt ∧ files r.2 = files st4
  | [] :: _ => False
  | (hdr :: tail) :: others =>
      if decide (hdr = [])
      then r.1 = Val tt ∧ files r.2 = files st4
      else
        let rows := hdr :: tail ++ concat (drop 1 <$> others) in
        match write_error h (runs st4) out rows (files st4) with
        | None =>
            r.1 = Val tt
            ∧ files r.2 = <[out := rows]> (files st4)
            ∧ FileWrite out rows ∈ trace r.2
        | Some (OpenFailed msg) =>
            r.1 = Raise (Error msg)
            ∧ files r.2 = files st4
            ∧ last (trace r.2) = Some (FileWrite out rows)
        | Some (WriteFailed msg partial) =>
            r.1 = Raise (Error msg)
            ∧ files r.2 = <[out := partial]> (files st4)
            ∧ last (trace r.2) = Some (FileWrite out rows)
        end
  end.
Proof.
  intros Hdry Hpre Hloop out r.
  pose proof (sc_main_loop h sa st ps st1 acc st4 Hdry Hpre Hloop) as Hmain.
  cbv zeta in Hmain. fold out in Hmain. fold r in Hmain.
  destruct (sc_loop_partition h sa (length ps) 1 ps
              (SingleCsv.Tally [] [] []) (sc_loop_start sa ps st1))
    as (s & f & d & Hr & _ & _ & _ & _ & Hd).
  unfold sc_loop_start in Hr. rewrite Hloop in Hr. cbn in Hr.
  injection Hr as ->. cbn [SingleCsv.all_csv_data] in *.
  destruct d as [|[|hdr tail] others].
  - by rewrite Hmain.
  - by apply Forall_cons in Hd as [Hd _].
  - case_decide as Hh.
    + subst hdr. by rewrite Hmain.
    + assert (rows_to_write ((hdr :: tail) :: others)
              = Some (hdr :: tail ++ concat (drop 1 <$> others))) as Hrows
        by by destruct hdr.
      rewrite Hrows in Hmain. cbv zeta.
      destruct (write_error h (runs st4) out _ (files st4))
        as [[msg|msg part]|]; rewrite Hmain; cbn [fst snd];
        (split; [done|]); (split; [done|]).
      * unfold leave. cbn [trace]. apply last_snoc.
      * unfold leave. cbn [trace]. apply last_snoc.
      * unfold emit_all, leave. cbn [trace].
        apply elem_of_app. left. apply elem_of_app. right. by left.
Qed.

Lemma combined_file_of_run_witness :
  let sa := SingleCsv.Args (py "us-east-1") None None (py "all.csv")
              (Some (py "prod,dev")) false in
  files (SingleCsv.main writing_host sa empty_state).2 !! py "all.csv"
  = Some [[py "cluster"; py "cost"]; [py "prod"; py "10"];
          [py "dev"; py "10"]].
Proof.
  intros sa.
  pose (ps := [py "prod"; py "dev"]).
  pose (st1 := log (Print (UsingSpecified ps)) empty_state).
  pose (acc := SingleCsv.Tally [py "prod"; py "dev"] []
                 [[[py "cluster"; py "cost"]; [py "prod"; py "10"]];
                  [[py "cluster"; py "cost"]; [py "dev"; py "10"]]]).
  pose (run := SingleCsv.process_profiles writing_host sa (length ps) 1 ps
                (SingleCsv.Tally [] [] [])
                (log (Print (Starting (length ps)))
                   (SingleCsv.show_configuration sa ps st1).2)).
  assert (run.1 = Val acc) as H1.
  { vm_compute. reflexivity. }
  assert (run = (Val acc, run.2)) as Hrun.
  { rewrite <- H1. apply surjective_pairing. }
  pose proof (combined_file_of_run writing_host sa empty_state ps st1
                acc run.2 eq_refl eq_refl Hrun) as H.
  change ((SingleCsv.main writing_host sa empty_state).1 = Val tt
          ∧ files (SingleCsv.main writing_host sa empty_state).2
            = <[py "all.csv"
                := [[py "cluster"; py "cost"]; [py "prod"; py "10"];
                    [py "dev"; py "10"]]]> (files run.2)
          ∧ FileWrite (py "all.csv")
              [[py "cluster"; py "cost"]; [py "prod"; py "10"];
               [py "dev"; py "10"]]
            ∈ trace (SingleCsv.main writing_host sa empty_state).2) in H.
  destruct H as (_ & H & _). rewrite H. apply lookup_insert_eq.
Defined.
